(** * Verification of the IPv4 addressing engine of NetworkCalculator

    Shallow embedding of [src/src/utils/ip-utils.ts] (the [IpUtils] object),
    of the computations of the calculator component that uses it, and of
    the [chat] method of the service the component sends questions to.

    JavaScript numbers are modelled as integers [Z]: every value the engine
    computes is an integer below 2^53, so double arithmetic is exact on it.
    The bitwise operators follow ECMAScript: operands go through ToInt32
    (or ToUint32 for [>>>]) and the shift count is taken modulo 32.
    Strings are [String.string]; each character stands for one UTF-16 code
    unit (only code units below 256 are representable). *)

From Stdlib Require Import ZArith String Ascii List Bool Lia.
Import ListNotations.
Open Scope string_scope.
Open Scope Z_scope.

(* ------------------------------------------------------------------ *)
(** ** ECMAScript 32-bit integer operators *)

Module Js.

Definition two32 : Z := 4294967296.
Definition two31 : Z := 2147483648.

(** ToUint32 / ToInt32 on an integral number. *)
Definition toUint32 (x : Z) : Z := x mod two32.
Definition toInt32 (x : Z) : Z :=
  let u := x mod two32 in if u <? two31 then u else u - two32.

(** [a << b]: the shift count is [ToUint32 b & 31]. *)
Definition shl (a b : Z) : Z := toInt32 (Z.shiftl (toInt32 a) (b mod 32)).
(** [a >>> b]. *)
Definition ushr (a b : Z) : Z := Z.shiftr (toUint32 a) (b mod 32).
(** [a & b], [a | b], [~a]. *)
Definition band (a b : Z) : Z := Z.land (toInt32 a) (toInt32 b).
Definition bor (a b : Z) : Z := Z.lor (toInt32 a) (toInt32 b).
Definition bnot (a : Z) : Z := Z.lnot (toInt32 a).

End Js.

(* ------------------------------------------------------------------ *)
(** ** String primitives: [split('.')], [join('.')], [parseInt], [toString] *)

Module Str.

Definition dot : ascii := "."%char.

(** ["..."].split('.'): always at least one part. *)
Fixpoint split_dot (s : string) : list string :=
  match s with
  | EmptyString => [EmptyString]
  | String c rest =>
      let parts := split_dot rest in
      if Ascii.eqb c dot then EmptyString :: parts
      else match parts with
           | p :: ps => String c p :: ps
           | [] => [String c EmptyString]
           end
  end.

(** [[...].join('.')]. *)
Fixpoint join_dot (l : list string) : string :=
  match l with
  | [] => EmptyString
  | [p] => p
  | p :: ps => (p ++ String dot (join_dot ps))
  end.

(** StrWhiteSpaceChar restricted to code units below 256:
    TAB, LF, VT, FF, CR, SPACE and NO-BREAK SPACE. *)
Definition is_ws (c : ascii) : bool :=
  let n := nat_of_ascii c in
  (Nat.eqb n 9 || Nat.eqb n 10 || Nat.eqb n 11 || Nat.eqb n 12
   || Nat.eqb n 13 || Nat.eqb n 32 || Nat.eqb n 160)%bool.

Fixpoint trim_start (s : string) : string :=
  match s with
  | String c rest => if is_ws c then trim_start rest else s
  | EmptyString => EmptyString
  end.

Definition digit_val (c : ascii) : option Z :=
  let n := nat_of_ascii c in
  if (Nat.leb 48 n && Nat.leb n 57)%bool then Some (Z.of_nat n - 48) else None.

(** The longest prefix of decimal digits. *)
Fixpoint digit_prefix (s : string) : list Z :=
  match s with
  | String c rest =>
      match digit_val c with Some d => d :: digit_prefix rest | None => [] end
  | EmptyString => []
  end.

Definition digits_value (ds : list Z) : Z :=
  fold_left (fun acc d => acc * 10 + d) ds 0.

(** [parseInt(s, 10)]; [None] is NaN. *)
Definition parseInt10 (s : string) : option Z :=
  let t := trim_start s in
  let '(sign, rest) :=
    match t with
    | String c r =>
        if Ascii.eqb c "-"%char then (-1, r)
        else if Ascii.eqb c "+"%char then (1, r) else (1, t)
    | EmptyString => (1, t)
    end in
  match digit_prefix rest with
  | [] => None
  | ds => Some (sign * digits_value ds)
  end.

Definition digit_char (d : Z) : ascii := ascii_of_nat (Z.to_nat d + 48).

Fixpoint dec_aux (fuel : nat) (n : Z) (acc : string) : string :=
  match fuel with
  | O => acc
  | S f =>
      let acc' := String (digit_char (n mod 10)) acc in
      if n <? 10 then acc' else dec_aux f (n / 10) acc'
  end.

(** Decimal rendering of a non-negative integer (Number.prototype.toString
    on integers below 10^21, the only ones the engine renders). *)
Definition dec (n : Z) : string := dec_aux (S (Z.to_nat (Z.log2 n))) n EmptyString.

(** [num.toString()] for an integral number. *)
Definition num_to_string (z : Z) : string :=
  if z <? 0 then String "-"%char (dec (- z)) else dec z.

Fixpoint bin_aux (fuel : nat) (n : Z) (acc : string) : string :=
  match fuel with
  | O => acc
  | S f =>
      let acc' := String (digit_char (n mod 2)) acc in
      if n <? 2 then acc' else bin_aux f (n / 2) acc'
  end.

(** [n.toString(2)] for a non-negative integer. *)
Definition bin (n : Z) : string := bin_aux (S (Z.to_nat (Z.log2 n))) n EmptyString.

Fixpoint zeros (k : nat) : string :=
  match k with O => EmptyString | S k => String "0"%char (zeros k) end.

(** [s.padStart(n, '0')]. *)
Definition pad_start (n : nat) (s : string) : string :=
  (zeros (n - String.length s) ++ s).

End Str.

(* ------------------------------------------------------------------ *)
(** ** The data model: [SubnetDetails], [SubnetRow], [IpCategoryInfo] *)

Record SubnetDetails := mkSubnetDetails {
  ip : string;
  cidr : Z;
  subnetMask : string;
  networkAddress : string;
  broadcastAddress : string;
  firstHost : string;
  lastHost : string;
  hostsPerSubnet : Z;
  hostBits : Z;
  borrowedBits : Z;
  subnetsCreated : Z;
  networkClass : string;
  defaultCidr : Z;
  baseCidr : Z;
  binaryIp : string;
  binaryMask : string;
  binaryNet : string;
  isValid : bool
}.

Record SubnetRow := mkSubnetRow {
  index : Z;
  rowNetworkAddress : string;
  range : string;
  rowBroadcastAddress : string;
  isCurrent : bool
}.

Record SubnetTable := mkSubnetTable {
  rows : list SubnetRow;
  totalCount : Z;
  truncated : bool
}.

(** The [isValid] field, under a name the component's own [isValid] does not hide. *)
Definition SubnetDetails_isValid (d : SubnetDetails) : bool := isValid d.

Inductive IpType :=
  Private | Public | Loopback | LinkLocal | Multicast | Reserved | CGNAT | Unknown.

Record IpCategoryInfo := mkIpCategoryInfo {
  type : IpType;
  rangeName : option string;
  minCidr : option Z;
  description : option string;
  isPrivate : bool
}.

Record PrivateRange := mkPrivateRange {
  pr_start : Z;
  pr_end : Z;
  pr_name : string;
  pr_minCidr : Z
}.

Definition PRIVATE_RANGES : list PrivateRange := [
  mkPrivateRange 167772160 184549375 "10.0.0.0/8" 8;
  mkPrivateRange 2886729728 2887778303 "172.16.0.0/12" 12;
  mkPrivateRange 3232235520 3232301055 "192.168.0.0/16" 16 ].

(* ------------------------------------------------------------------ *)
(** ** [IpUtils] *)

Module IpUtils.
Import Js Str.

(** The predicate of [parts.every(...)] in [isValidIp]. *)
Definition part_ok (part : string) : bool :=
  match parseInt10 part with
  | None => false
  | Some num =>
      if (0 <=? num) && (num <=? 255) then String.eqb part (num_to_string num)
      else false
  end.

Definition isValidIp (ip : string) : bool :=
  let parts := split_dot ip in
  if negb (Nat.eqb (List.length parts) 4) then false
  else forallb part_ok parts.

(** [ip.split('.').reduce((acc, octet) => (acc << 8) + parseInt(octet, 10), 0) >>> 0];
    [None] stands for NaN, which ToInt32/ToUint32 turn into 0. *)
Definition num_toInt32 (x : option Z) : Z :=
  match x with Some z => toInt32 z | None => 0 end.

Definition ipToLong (ip : string) : Z :=
  let acc :=
    fold_left
      (fun (acc : option Z) octet =>
         match parseInt10 octet with
         | Some v => Some (shl (num_toInt32 acc) 8 + v)
         | None => None
         end)
      (split_dot ip) (Some 0) in
  match acc with Some z => ushr z 0 | None => 0 end.

Definition longToIp (long : Z) : string :=
  join_dot [ num_to_string (band (ushr long 24) 255);
             num_to_string (band (ushr long 16) 255);
             num_to_string (band (ushr long 8) 255);
             num_to_string (band long 255) ].

Definition toBinaryString (num : Z) : string := pad_start 32 (bin (ushr num 0)).





Definition getNetworkClass (firstOctet : Z) : string * Z :=
  if (firstOctet >=? 0) && (firstOctet <=? 127) then ("A", 8)
  else if (firstOctet >=? 128) && (firstOctet <=? 191) then ("B", 16)
  else if (firstOctet >=? 192) && (firstOctet <=? 223) then ("C", 24)
  else if (firstOctet >=? 224) && (firstOctet <=? 239) then ("D", 0)
  else ("E", 0).

(** The [for (const range of PRIVATE_RANGES)] loop of [getIpCategory]. *)
Fixpoint private_lookup (long : Z) (rs : list PrivateRange) : option PrivateRange :=
  match rs with
  | [] => None
  | r :: rs' =>
      if (long >=? pr_start r) && (long <=? pr_end r) then Some r
      else private_lookup long rs'
  end.

Definition cat (t : IpType) (d : string) : IpCategoryInfo :=
  mkIpCategoryInfo t None None (Some d) false.

Definition getIpCategory (ip : string) : IpCategoryInfo :=
  if negb (isValidIp ip) then mkIpCategoryInfo Unknown None None None false
  else
    let long := ipToLong ip in
    match private_lookup long PRIVATE_RANGES with
    | Some r =>
        mkIpCategoryInfo Private (Some (pr_name r)) (Some (pr_minCidr r))
                         (Some "RFC 1918 Private") true
    | None =>
      if (long >=? 2130706432) && (long <=? 2147483647) then cat Loopback "Loopback Address"
      else if (long >=? 2851995648) && (long <=? 2852061183) then cat LinkLocal "APIPA / Link-Local"
      else if (long >=? 1681915904) && (long <=? 1686110207) then cat CGNAT "Carrier-Grade NAT"
      else if (long >=? 3758096384) && (long <=? 4026531839) then cat Multicast "Multicast"
      else if (long >=? 4026531840) && (long <=? 4294967295) then cat Reserved "Reserved"
      else cat Public "Public Internet Address"
    end.

(** The intersection loop of [checkPrivateOverlap]. *)
Fixpoint overlap_lookup (networkStart networkEnd : Z) (rs : list PrivateRange)
  : option string :=
  match rs with
  | [] => None
  | r :: rs' =>
      if (networkStart <=? pr_end r) && (networkEnd >=? pr_start r) then Some (pr_name r)
      else overlap_lookup networkStart networkEnd rs'
  end.

Definition checkPrivateOverlap (ip : string) (cidr : Z) : option string :=
  if negb (isValidIp ip) then None
  else
    let ipLong := ipToLong ip in
    let maskLong := ushr (shl (-1) (32 - cidr)) 0 in
    let networkStart := ushr (band ipLong maskLong) 0 in
    let networkEnd := ushr (bor networkStart (bnot maskLong)) 0 in
    overlap_lookup networkStart networkEnd PRIVATE_RANGES.

(** [calculateSubnet(ip, cidr, parentCidr?)]; [None] is an omitted
    [parentCidr].  [Math.pow(2, k)] is [2 ^ k] on the integral exponents the
    engine uses. *)
Definition calculateSubnet (ip : string) (cidr : Z) (parentCidr : option Z)
  : SubnetDetails :=
  if negb (isValidIp ip) then
    mkSubnetDetails ip cidr "" "" "" "" "" 0 0 0 0 "-" 0 0 "" "" "" false
  else
    let ipLong := ipToLong ip in
    let maskLong := shl (-1) (32 - cidr) in
    let networkLong := ushr (band ipLong maskLong) 0 in
    let broadcastLong := ushr (bor networkLong (bnot maskLong)) 0 in
    let hostBits := 32 - cidr in
    let hostsPerSubnet := if hostBits >? 0 then 2 ^ hostBits - 2 else 0 in
    (* parseInt(ip.split('.')[0], 10); NaN fails every test of getNetworkClass *)
    let netClass :=
      match parseInt10 (hd EmptyString (split_dot ip)) with
      | Some firstOctet => getNetworkClass firstOctet
      | None => ("E", 0)
      end in
    let baseCidr :=
      match parentCidr with Some p => p | None => snd netClass end in
    let borrowedBits :=
      if (baseCidr >? 0) && (cidr >=? baseCidr) then cidr - baseCidr else 0 in
    let subnetsCreated := 2 ^ borrowedBits in
    let firstHostLong := ushr (networkLong + 1) 0 in
    let lastHostLong := ushr (broadcastLong - 1) 0 in
    mkSubnetDetails
      ip cidr
      (longToIp maskLong)
      (longToIp networkLong)
      (longToIp broadcastLong)
      (if cidr <? 31 then longToIp firstHostLong else "N/A")
      (if cidr <? 31 then longToIp lastHostLong else "N/A")
      (if hostsPerSubnet >? 0 then hostsPerSubnet else 0)
      hostBits
      borrowedBits
      subnetsCreated
      (fst netClass)
      (snd netClass)
      baseCidr
      (toBinaryString ipLong)
      (toBinaryString maskLong)
      (toBinaryString networkLong)
      true.

(** One iteration of the [for] loop of [generateSubnetTable]. *)
Definition subnet_row (ipLong cidr baseNetworkLong increment i : Z) : SubnetRow :=
  let currentNet := ushr (baseNetworkLong + i * increment) 0 in
  let currentBroadcast := ushr (currentNet + increment - 1) 0 in
  let startHost := ushr (currentNet + 1) 0 in
  let endHost := ushr (currentBroadcast - 1) 0 in
  let isCurrent := (ipLong >=? currentNet) && (ipLong <=? currentBroadcast) in
  let rangeStr :=
    if cidr <? 31 then (longToIp startHost ++ " - " ++ longToIp endHost)
    else "N/A" in
  mkSubnetRow (i + 1) (longToIp currentNet) rangeStr (longToIp currentBroadcast) isCurrent.

(** [generateSubnetTable(ip, cidr, baseCidr, limit)] (the source's default
    [limit] is 256); [for (let i = 0; i < loopLimit; i++)] pushes the rows
    for [i = 0 .. loopLimit - 1]. *)
Definition generateSubnetTable (ip : string) (cidr baseCidr limit : Z) : SubnetTable :=
  if negb (isValidIp ip) || (cidr <? baseCidr) then mkSubnetTable [] 0 false
  else
    let ipLong := ipToLong ip in
    let baseMaskLong := ushr (shl (-1) (32 - baseCidr)) 0 in
    let baseNetworkLong := ushr (band ipLong baseMaskLong) 0 in
    let borrowedBits := cidr - baseCidr in
    let totalCount := 2 ^ borrowedBits in
    let increment := 2 ^ (32 - cidr) in
    let loopLimit := Z.min totalCount limit in
    let rows :=
      map (fun n => subnet_row ipLong cidr baseNetworkLong increment (Z.of_nat n))
          (seq 0 (Z.to_nat loopLimit)) in
    mkSubnetTable rows totalCount (totalCount >? limit).

End IpUtils.

(* ------------------------------------------------------------------ *)
(** ** The specification's own formulations, to compare the code with *)

Module Spec.
Import Js Str IpUtils.

(** mask(cidr): all-ones shifted left by [32 - cidr] bits, as unsigned 32-bit. *)
Definition mask (cidr : Z) : Z := Z.land (Z.shiftl (Z.ones 32) (32 - cidr)) (Z.ones 32).
Definition network (a cidr : Z) : Z := Z.land a (mask cidr).
Definition broadcast (a cidr : Z) : Z :=
  Z.lor (network a cidr) (Z.land (Z.lnot (mask cidr)) (Z.ones 32)).

(** The legacy class default prefix of a first octet. *)
Definition legacy_default (firstOctet : Z) : Z :=
  if (0 <=? firstOctet) && (firstOctet <=? 127) then 8
  else if (128 <=? firstOctet) && (firstOctet <=? 191) then 16
  else if (192 <=? firstOctet) && (firstOctet <=? 223) then 24
  else 0.

(** An address block a.b.c.d/len of the classification table. *)
Record Block := mkBlock {
  b_type : IpType;
  b_octets : Z * Z * Z * Z;
  b_len : Z;
  b_minCidr : option Z
}.

Definition b_start (b : Block) : Z :=
  let '(o1, o2, o3, o4) := b_octets b in o1 * 2 ^ 24 + o2 * 2 ^ 16 + o3 * 2 ^ 8 + o4.
Definition b_end (b : Block) : Z := b_start b + 2 ^ (32 - b_len b) - 1.
Definition b_name (b : Block) : string :=
  longToIp (b_start b) ++ "/" ++ dec (b_len b).
Definition in_block (x : Z) (b : Block) : bool := (b_start b <=? x) && (x <=? b_end b).

Definition rfc1918 : list Block := [
  mkBlock Private (10, 0, 0, 0) 8 (Some 8);
  mkBlock Private (172, 16, 0, 0) 12 (Some 12);
  mkBlock Private (192, 168, 0, 0) 16 (Some 16) ].

(** The priority order of the classifier. *)
Definition blocks : list Block := rfc1918 ++ [
  mkBlock Loopback (127, 0, 0, 0) 8 None;
  mkBlock LinkLocal (169, 254, 0, 0) 16 None;
  mkBlock CGNAT (100, 64, 0, 0) 10 None;
  mkBlock Multicast (224, 0, 0, 0) 4 None;
  mkBlock Reserved (240, 0, 0, 0) 4 None ].

(** Category, range name and minimum prefix: first matching block wins,
    Public otherwise, Unknown for an invalid string. *)
Definition classify (text : string) : IpType * option string * option Z :=
  if negb (isValidIp text) then (Unknown, None, None)
  else
    match find (in_block (ipToLong text)) blocks with
    | Some b =>
        (b_type b,
         match b_type b with Private => Some (b_name b) | _ => None end,
         b_minCidr b)
    | None => (Public, None, None)
    end.

(** First RFC1918 block intersecting [network, broadcast] of address/cidr. *)
Definition private_overlap (text : string) (cidr : Z) : option string :=
  if negb (isValidIp text) then None
  else
    let a := ipToLong text in
    let start := network a cidr in
    let end_ := broadcast a cidr in
    match find (fun b => (start <=? b_end b) && (b_start b <=? end_)) rfc1918 with
    | Some b => Some (b_name b)
    | None => None
    end.

(** A part that is the canonical decimal rendering of an integer in [0,255]. *)
Definition canonical_octet (p : string) : Prop := exists n, 0 <= n <= 255 /\ dec n = p.

Definition has_leading_zero (p : string) : bool :=
  match p with String c (String _ _) => Ascii.eqb c "0"%char | _ => false end.

Fixpoint has_ws_or_sign (p : string) : bool :=
  match p with
  | EmptyString => false
  | String c r => is_ws c || Ascii.eqb c "+"%char || Ascii.eqb c "-"%char || has_ws_or_sign r
  end.

(** The [k] low bits of [n], most significant first. *)
Definition bit_char (b : bool) : ascii := if b then "1"%char else "0"%char.

Fixpoint bits_msb (k : nat) (n : Z) : string :=
  match k with
  | O => EmptyString
  | S k' => bits_msb k' (n / 2) ++ String (bit_char (Z.odd n)) EmptyString
  end.

(** All numeric fields zero and all string fields empty. *)
Definition details_blank (r : SubnetDetails) : bool :=
  (cidr r =? 0) && (hostsPerSubnet r =? 0) && (hostBits r =? 0)
  && (borrowedBits r =? 0) && (subnetsCreated r =? 0) && (defaultCidr r =? 0)
  && (baseCidr r =? 0)
  && String.eqb (ip r) "" && String.eqb (subnetMask r) ""
  && String.eqb (networkAddress r) "" && String.eqb (broadcastAddress r) ""
  && String.eqb (firstHost r) "" && String.eqb (lastHost r) ""
  && String.eqb (networkClass r) "" && String.eqb (binaryIp r) ""
  && String.eqb (binaryMask r) "" && String.eqb (binaryNet r) "".

End Spec.

(* ------------------------------------------------------------------ *)
(** ** The chat service ([src/src/services/llm.service.ts]) *)

Module Llm.
Import Str.

Record LlmConfig := mkLlmConfig { provider : string; apiKey : string }.

(** How a promise settles: with a value, or rejected with an [Error] whose
    [message] is given. *)
Inductive Outcome := Resolved (value : string) | Rejected (message : string).

(** How a statement block completes synchronously inside [try]. *)
Inductive Completion := Return (p : Outcome) | Throw (message : string).

(** The three private request functions; each performs a [fetch] or an SDK
    call, so its settlement is a parameter of the model. Being [async], they
    never throw synchronously: they return a promise. *)
Record Providers := mkProviders {
  chatGemini : string -> string -> Outcome;
  chatOpenAI : string -> string -> Outcome;
  chatAnthropic : string -> string -> Outcome
}.

Definition nl : string := String (ascii_of_nat 10) EmptyString.
Definition quote : string := String (ascii_of_nat 34) EmptyString.

(** The template literal [systemPrompt] of [chat]. *)
Definition systemPrompt (message : string) (context : SubnetDetails) : string :=
  String.concat nl [
    "";
    "      You are an expert Network Engineer and Tutor.";
    "      ";
    "      Current Subnet Configuration Context:";
    "      - Host IP: " ++ ip context;
    "      - Initial Network Mask: /" ++ num_to_string (baseCidr context);
    "      - New/Target Subnet Mask: /" ++ num_to_string (cidr context);
    "      - Borrowed Bits: " ++ num_to_string (borrowedBits context);
    "      - Subnets Created: " ++ num_to_string (subnetsCreated context);
    "      - Hosts per Subnet: " ++ num_to_string (hostsPerSubnet context);
    "      - Network Address: " ++ networkAddress context;
    "      - Broadcast Address: " ++ broadcastAddress context;
    "      - Range: " ++ firstHost context ++ " to " ++ lastHost context;
    "";
    "      User Question: " ++ quote ++ message ++ quote;
    "";
    "      Please provide a concise, educational answer. Break down the logic if asked.";
    "    " ]%string.

(** [s.includes(needle)]. *)
Fixpoint includes (needle s : string) : bool :=
  (String.prefix needle s ||
   match s with EmptyString => false | String _ r => includes needle r end)%bool.

(** The [catch] block of [chat]. *)
Definition handle_error (message : string) : string :=
  if includes "401" message then "Authentication failed. Please check your API Key."
  else if includes "Failed to fetch" message then
    "Network error. If using Anthropic/OpenAI, this may be a browser CORS restriction."
  else "Error: " ++ (if String.eqb message "" then "Unable to get response" else message).

(** [chat(message, context)]: the promise of an [async] function that
    returns a promise [p] from its [try] block settles as [p] does; only a
    synchronous [throw] reaches the [catch] block. *)
Definition chat (pv : Providers) (config : option LlmConfig) (message : string)
    (context : SubnetDetails) : Outcome :=
  match config with
  | None => Rejected "No configuration found. Please add your API key."
  | Some cfg =>
      let prompt := systemPrompt message context in
      let body :=
        if String.eqb (provider cfg) "gemini" then Return (chatGemini pv (apiKey cfg) prompt)
        else if String.eqb (provider cfg) "openai" then Return (chatOpenAI pv (apiKey cfg) prompt)
        else if String.eqb (provider cfg) "anthropic" then
          Return (chatAnthropic pv (apiKey cfg) prompt)
        else Throw "Unknown provider selected." in
      match body with
      | Return p => p
      | Throw msg => Resolved (handle_error msg)
      end
  end.

End Llm.

(* ------------------------------------------------------------------ *)
(** ** The calculator component ([SubnetCalculatorComponent]) *)

Module Calc.
Import Js Str IpUtils Llm.

(** The signals the computations below read. *)
Record ChatMessage := mkChatMessage { role : string; text : string }.

Record Component := mkComponent {
  ipInput : string;
  cidrInput : Z;
  parentCidrInput : Z;
  chatInput : string;
  chatMessages : list ChatMessage;
  isThinking : bool;
  showSettings : bool
}.

Definition ipInfo (st : Component) : IpCategoryInfo := getIpCategory (ipInput st).

Record ConfigError := mkConfigError { isError : bool; message : string; detail : string }.

(** [${x}] of an optional string ([undefined] when absent). *)
Definition show_opt (o : option string) : string :=
  match o with Some s => s | None => "undefined" end.

Definition configError (st : Component) : option ConfigError :=
  let info := ipInfo st in
  let parentCidr := parentCidrInput st in
  let ip := ipInput st in
  let case1 :=
    match type info, minCidr info with
    | Private, Some m => negb (m =? 0) && (parentCidr <? m)
    | _, _ => false
    end in
  if case1 then
    Some (mkConfigError true "Invalid Mask for Private IP"
            ("The " ++ show_opt (rangeName info) ++ " range requires a mask of /"
             ++ num_to_string (match minCidr info with Some m => m | None => 0 end)
             ++ " or higher to stay private."))
  else
    match type info with
    | Public =>
        match checkPrivateOverlap ip parentCidr with
        | Some overlap =>
            if String.eqb overlap "" then None
            else Some (mkConfigError true "Public IP Overlaps Private Range"
                         ("This configuration creates a network that overlaps with the private "
                          ++ overlap ++ " range."))
        | None => None
        end
    | _ => None
    end.

Definition result (st : Component) : SubnetDetails :=
  calculateSubnet (ipInput st) (cidrInput st) (Some (parentCidrInput st)).

(** [res.isValid] of the result. *)
Definition result_valid (st : Component) : bool := SubnetDetails_isValid (result st).

Definition isValid (st : Component) : bool :=
  if negb (result_valid st) then false
  else match configError st with
       | Some _ => false
       | None => cidrInput st >=? parentCidrInput st
       end.

Definition subnetTable (st : Component) : SubnetTable :=
  if negb (isValid st) then mkSubnetTable [] 0 false
  else generateSubnetTable (ipInput st) (cidrInput st) (baseCidr (result st)) 256.

Inductive BitType := bit_network | bit_subnet | bit_host.

Record BitDetail := mkBitDetail { value : string; bd_type : BitType }.

(** The [map((bit, index) => ...)] over [fullBinary.split('')], from
    [index]. *)
Fixpoint bit_details (cidr baseCidr index : Z) (s : string) : list BitDetail :=
  match s with
  | EmptyString => []
  | String bit rest =>
      mkBitDetail (String bit EmptyString)
        (if index <? baseCidr then bit_network
         else if index <? cidr then bit_subnet else bit_host)
      :: bit_details cidr baseCidr (index + 1) rest
  end.

Definition bitVisuals (st : Component) : list BitDetail :=
  let res := result st in
  if negb (SubnetDetails_isValid res) then []
  else bit_details (cidrInput st) (baseCidr res) 0 (binaryIp res).

(** [s.split('')]. *)
Definition split_chars (s : string) : list string :=
  map (fun c => String c EmptyString) (list_ascii_of_string s).

Definition maskVisuals (st : Component) : list string :=
  let res := result st in
  if SubnetDetails_isValid res then split_chars (binaryMask res) else [].




(** [updateParentCidr] for an event value that [parseInt] reads as a number
    (a value read as NaN is outside this model, which keeps integers). *)
Definition updateParentCidr (st : Component) (raw : string) : option Component :=
  match parseInt10 raw with
  | None => None
  | Some value =>
      let st1 := mkComponent (ipInput st) (cidrInput st) value (chatInput st)
                   (chatMessages st) (isThinking st) (showSettings st) in
      if cidrInput st1 <? value then
        Some (mkComponent (ipInput st1) value (parentCidrInput st1) (chatInput st1)
                (chatMessages st1) (isThinking st1) (showSettings st1))
      else Some st1
  end.

(** [String.prototype.trim] on code units below 256. *)
Definition trim (s : string) : string :=
  string_of_list_ascii (rev (list_ascii_of_string (trim_start
    (string_of_list_ascii (rev (list_ascii_of_string (trim_start s))))))).

(** [sendChat(messageText?)], run to completion with the service's
    configuration [config] and request functions [pv]; the scrolling and the
    intermediate states seen while awaiting are left out. *)
Definition sendChat (pv : Providers) (config : option LlmConfig) (st : Component)
    (messageText : option string) : Component :=
  let text := match messageText with
              | Some m => if String.eqb m "" then trim (chatInput st) else m
              | None => trim (chatInput st)
              end in
  if (String.eqb text "" || negb (isValid st) || isThinking st)%bool then st
  else match config with
       | None => mkComponent (ipInput st) (cidrInput st) (parentCidrInput st) (chatInput st)
                   (chatMessages st) (isThinking st) true
       | Some _ =>
           let msgs := (chatMessages st ++ [mkChatMessage "user" text])%list in
           let reply :=
             match chat pv config text (result st) with
             | Resolved response => mkChatMessage "ai" response
             | Rejected _ =>
                 mkChatMessage "ai" "Sorry, I encountered an error. Please check your settings."
             end in
           mkComponent (ipInput st) (cidrInput st) (parentCidrInput st) ""
             (msgs ++ [reply])%list false (showSettings st)
       end.

End Calc.

(* ------------------------------------------------------------------ *)
(** ** Facts about the primitives *)

Module Facts.
Import Js Str IpUtils Spec.

(** A boolean property of all octets, checked on the 256 values. *)
Lemma octet_check (P : Z -> bool) :
  forallb P (map Z.of_nat (seq 0 256)) = true -> forall n, 0 <= n <= 255 -> P n = true.
Proof.
  intros H n Hn. rewrite forallb_forall in H. apply H.
  apply in_map_iff. exists (Z.to_nat n). split; [lia|]. apply in_seq. lia.
Qed.

Lemma parse_dec (n : Z) : 0 <= n <= 255 -> parseInt10 (dec n) = Some n.
Proof.
  intros Hn.
  pose proof (octet_check
    (fun n => match parseInt10 (dec n) with Some m => m =? n | None => false end)
    ltac:(vm_compute; reflexivity) n Hn) as H.
  cbv beta in H. destruct (parseInt10 (dec n)); [|discriminate].
  apply Z.eqb_eq in H. now subst.
Qed.

Lemma num_to_string_nonneg (n : Z) : 0 <= n -> num_to_string n = dec n.
Proof. intros Hn. unfold num_to_string. destruct (Z.ltb_spec n 0); [lia|reflexivity]. Qed.

Lemma part_ok_iff (p : string) : part_ok p = true <-> canonical_octet p.
Proof.
  unfold part_ok, canonical_octet. split.
  - destruct (parseInt10 p) as [num|] eqn:E; [|discriminate].
    destruct (Z.leb_spec 0 num), (Z.leb_spec num 255); simpl; try discriminate.
    intros Heq. apply String.eqb_eq in Heq.
    exists num. split; [lia|]. rewrite Heq. symmetry. now apply num_to_string_nonneg.
  - intros (n & Hn & <-). rewrite parse_dec by exact Hn.
    destruct (Z.leb_spec 0 n), (Z.leb_spec n 255); try lia. simpl.
    rewrite num_to_string_nonneg by lia. apply String.eqb_refl.
Qed.

Lemma isValidIp_iff (text : string) :
  isValidIp text = true <->
  List.length (split_dot text) = 4%nat /\ Forall canonical_octet (split_dot text).
Proof.
  unfold isValidIp. destruct (Nat.eqb_spec (List.length (split_dot text)) 4) as [H4|H4];
    simpl.
  - rewrite forallb_forall, Forall_forall. split.
    + intros H. split; [exact H4|]. intros p Hp. apply part_ok_iff, H, Hp.
    + intros [_ H] p Hp. apply part_ok_iff, H, Hp.
  - split; [discriminate|]. intros [H _]. contradiction.
Qed.

Lemma valid_parts (text : string) :
  isValidIp text = true ->
  exists n1 n2 n3 n4,
    0 <= n1 <= 255 /\ 0 <= n2 <= 255 /\ 0 <= n3 <= 255 /\ 0 <= n4 <= 255 /\
    split_dot text = [dec n1; dec n2; dec n3; dec n4].
Proof.
  intros H. apply isValidIp_iff in H as [Hl Hf].
  destruct (split_dot text) as [|p1 [|p2 [|p3 [|p4 [|p5 ps]]]]]; simpl in Hl; try discriminate.
  inversion Hf as [|? ? (n1 & H1 & <-) Hf1]; subst.
  inversion Hf1 as [|? ? (n2 & H2 & <-) Hf2]; subst.
  inversion Hf2 as [|? ? (n3 & H3 & <-) Hf3]; subst.
  inversion Hf3 as [|? ? (n4 & H4 & <-) _]; subst.
  exists n1, n2, n3, n4. repeat split; lia.
Qed.

Lemma split_dot_nonempty (s : string) : split_dot s <> [].
Proof.
  destruct s as [|c rest]; simpl; [discriminate|].
  destruct (Ascii.eqb c dot); [discriminate|]. destruct (split_dot rest); discriminate.
Qed.

Lemma join_split (s : string) : join_dot (split_dot s) = s.
Proof.
  induction s as [|c rest IH]; [reflexivity|]. simpl.
  pose proof (split_dot_nonempty rest) as Hne.
  destruct (Ascii.eqb c dot) eqn:Ec.
  - apply Ascii.eqb_eq in Ec. subst c.
    destruct (split_dot rest) as [|p ps]; [contradiction|].
    simpl. f_equal. exact IH.
  - destruct (split_dot rest) as [|p ps]; [contradiction|].
    destruct ps as [|q qs]; simpl in *; f_equal; exact IH.
Qed.

(** Arithmetic of ToInt32 and ToUint32. *)
Lemma toInt32_small (x : Z) : 0 <= x < two31 -> toInt32 x = x.
Proof.
  intros Hx. unfold toInt32, two32, two31 in *.
  rewrite Z.mod_small by lia. destruct (Z.ltb_spec x 2147483648); lia.
Qed.

Lemma toInt32_mod (x : Z) : toInt32 x mod two32 = x mod two32.
Proof.
  unfold toInt32. destruct (_ <? two31).
  - apply Z.mod_mod. unfold two32; lia.
  - replace (x mod two32 - two32) with (x mod two32 + (-1) * two32) by lia.
    rewrite Z.mod_add by (unfold two32; lia). apply Z.mod_mod. unfold two32; lia.
Qed.

Lemma toInt32_add_mod (x y : Z) : (toInt32 x + y) mod two32 = (x + y) mod two32.
Proof.
  rewrite Z.add_mod by (unfold two32; lia). rewrite toInt32_mod.
  rewrite <- Z.add_mod by (unfold two32; lia). reflexivity.
Qed.

Lemma mod32_mod256 (y : Z) : y mod two32 mod 256 = y mod 256.
Proof.
  unfold two32. change 4294967296 with (256 * 16777216).
  rewrite Z.rem_mul_r by lia. rewrite Z.mul_comm, Z.mod_add by lia.
  apply Z.mod_mod; lia.
Qed.

Lemma toInt32_mod256 (x : Z) : toInt32 x mod 256 = x mod 256.
Proof. rewrite <- (mod32_mod256 (toInt32 x)), toInt32_mod. apply mod32_mod256. Qed.

Lemma ushr_div (x k : Z) : 0 <= k < 32 -> ushr x k = x mod two32 / 2 ^ k.
Proof.
  intros Hk. unfold ushr, toUint32. rewrite Z.mod_small with (a := k) by lia.
  apply Z.shiftr_div_pow2. lia.
Qed.

Lemma band_255 (x : Z) : band x 255 = x mod 256.
Proof.
  unfold band. rewrite (toInt32_small 255) by (unfold two31; lia).
  change 255 with (Z.ones 8). rewrite Z.land_ones by lia.
  apply toInt32_mod256.
Qed.

Lemma longToIp_bytes (x : Z) :
  longToIp x =
  join_dot [ dec (x mod two32 / 2 ^ 24 mod 256); dec (x mod two32 / 2 ^ 16 mod 256);
             dec (x mod two32 / 2 ^ 8 mod 256); dec (x mod 256) ].
Proof.
  unfold longToIp. rewrite !band_255, !ushr_div by lia.
  rewrite !num_to_string_nonneg by (apply Z.mod_pos_bound; lia). reflexivity.
Qed.

Lemma shl8_small (x : Z) : 0 <= x < 2 ^ 23 -> shl x 8 = x * 256.
Proof.
  intros Hx. unfold shl. rewrite (toInt32_small x) by (unfold two31; lia).
  change (8 mod 32) with 8. rewrite Z.shiftl_mul_pow2 by lia.
  apply toInt32_small. unfold two31. lia.
Qed.

Lemma ipToLong_octets (text : string) (n1 n2 n3 n4 : Z) :
  0 <= n1 <= 255 -> 0 <= n2 <= 255 -> 0 <= n3 <= 255 -> 0 <= n4 <= 255 ->
  split_dot text = [dec n1; dec n2; dec n3; dec n4] ->
  ipToLong text = n1 * 2 ^ 24 + n2 * 2 ^ 16 + n3 * 2 ^ 8 + n4.
Proof.
  intros H1 H2 H3 H4 Hs. unfold ipToLong. rewrite Hs. cbn [fold_left].
  rewrite !parse_dec by assumption. cbn [num_toInt32].
  change (toInt32 0) with 0. rewrite (shl8_small 0) by lia.
  rewrite (toInt32_small (0 * 256 + n1)) by (unfold two31; lia).
  rewrite (shl8_small (0 * 256 + n1)) by lia.
  rewrite (toInt32_small ((0 * 256 + n1) * 256 + n2)) by (unfold two31; lia).
  rewrite (shl8_small ((0 * 256 + n1) * 256 + n2)) by lia.
  rewrite (toInt32_small (((0 * 256 + n1) * 256 + n2) * 256 + n3)) by (unfold two31; lia).
  rewrite ushr_div by lia. change (2 ^ 0) with 1. rewrite Z.div_1_r.
  unfold shl. change (8 mod 32) with 8.
  rewrite (toInt32_small (((0 * 256 + n1) * 256 + n2) * 256 + n3)) by (unfold two31; lia).
  rewrite Z.shiftl_mul_pow2 by lia.
  rewrite toInt32_add_mod. rewrite Z.mod_small by (unfold two32; lia). ring.
Qed.

Lemma octets_of_word (n1 n2 n3 n4 : Z) :
  0 <= n1 <= 255 -> 0 <= n2 <= 255 -> 0 <= n3 <= 255 -> 0 <= n4 <= 255 ->
  let x := n1 * 2 ^ 24 + n2 * 2 ^ 16 + n3 * 2 ^ 8 + n4 in
  x mod two32 = x /\ x / 2 ^ 24 mod 256 = n1 /\ x / 2 ^ 16 mod 256 = n2 /\
  x / 2 ^ 8 mod 256 = n3 /\ x mod 256 = n4.
Proof.
  intros H1 H2 H3 H4 x. subst x. unfold two32.
  repeat split; Z.div_mod_to_equations; lia.
Qed.

(** The round trip, shared by the codec claims. *)
Lemma longToIp_ipToLong (text : string) :
  isValidIp text = true -> longToIp (ipToLong text) = text.
Proof.
  intros Hv. destruct (valid_parts text Hv) as (n1 & n2 & n3 & n4 & H1 & H2 & H3 & H4 & Hs).
  rewrite (ipToLong_octets text n1 n2 n3 n4 H1 H2 H3 H4 Hs), longToIp_bytes.
  destruct (octets_of_word n1 n2 n3 n4 H1 H2 H3 H4) as (E0 & E1 & E2 & E3 & E4).
  rewrite E0, E1, E2, E3, E4, <- Hs. apply join_split.
Qed.

Lemma ushr0 (y : Z) : ushr y 0 = y mod two32.
Proof. rewrite ushr_div by lia. apply Z.div_1_r. Qed.

Lemma ushr0_range (y : Z) : 0 <= ushr y 0 < two32.
Proof. rewrite ushr0. apply Z.mod_pos_bound. unfold two32; lia. Qed.

Lemma ipToLong_range (text : string) : 0 <= ipToLong text < two32.
Proof.
  unfold ipToLong. destruct (fold_left _ _ _); [apply ushr0_range|unfold two32; lia].
Qed.

Lemma longToIp_mod (y : Z) : longToIp (y mod two32) = longToIp y.
Proof.
  rewrite !longToIp_bytes, Z.mod_mod, mod32_mod256 by (unfold two32; lia).
  reflexivity.
Qed.

Lemma first_octet (text : string) (n1 n2 n3 n4 : Z) :
  0 <= n1 <= 255 -> 0 <= n2 <= 255 -> 0 <= n3 <= 255 -> 0 <= n4 <= 255 ->
  split_dot text = [dec n1; dec n2; dec n3; dec n4] ->
  ipToLong text / 2 ^ 24 = n1.
Proof.
  intros H1 H2 H3 H4 Hs. rewrite (ipToLong_octets text n1 n2 n3 n4 H1 H2 H3 H4 Hs).
  Z.div_mod_to_equations. lia.
Qed.

Lemma getNetworkClass_default (n : Z) :
  0 <= n <= 255 -> snd (getNetworkClass n) = legacy_default n.
Proof.
  intros Hn.
  pose proof (octet_check (fun n => snd (getNetworkClass n) =? legacy_default n)
    ltac:(vm_compute; reflexivity) n Hn) as H.
  now apply Z.eqb_eq in H.
Qed.

(** A row whose [[network, broadcast]] contains [a] has [a < network + increment]:
    a broadcast that wrapped past 2^32 lies below its network. *)
Lemma current_window (net inc a : Z) :
  0 <= net < two32 -> 0 < inc <= two32 ->
  net <= a -> a <= (net + inc - 1) mod two32 -> a < net + inc.
Proof. unfold two32. intros Hn Hi H1 H2. Z.div_mod_to_equations. lia. Qed.

(** Two rows [k1], [k2] below [P = 2^32 / inc] whose windows
    [[network, network + inc)] both contain [a] are the same row. *)
Lemma rows_unique (B a inc P k1 k2 : Z) :
  0 < inc -> 0 < P -> inc * P = two32 -> 0 <= k1 < P -> 0 <= k2 < P ->
  (B + k1 * inc) mod two32 <= a < (B + k1 * inc) mod two32 + inc ->
  (B + k2 * inc) mod two32 <= a < (B + k2 * inc) mod two32 + inc ->
  k1 = k2.
Proof.
  intros Hi HP HiP Hk1 Hk2 W1 W2.
  rewrite Z.mod_eq in W1, W2 by (unfold two32; lia).
  set (q1 := (B + k1 * inc) / two32) in *. set (q2 := (B + k2 * inc) / two32) in *.
  rewrite <- HiP in W1, W2.
  set (m := (k1 - k2) - P * (q1 - q2)).
  assert (Hm : - inc < inc * m < inc) by (unfold m; nia).
  assert (Hm0 : m = 0).
  { destruct (Z.lt_trichotomy m 0) as [Hlt|[Heq|Hgt]]; [nia|exact Heq|nia]. }
  assert (Hq : q1 = q2).
  { unfold m in Hm0. destruct (Z.lt_trichotomy q1 q2) as [Hlt|[Heq|Hgt]]; [nia|exact Heq|nia]. }
  unfold m in Hm0. rewrite Hq in Hm0. lia.
Qed.

Lemma subnet_row_current (ipLong c B inc i : Z) :
  isCurrent (subnet_row ipLong c B inc i) = true ->
  (B + i * inc) mod two32 <= ipLong <= ((B + i * inc) mod two32 + inc - 1) mod two32.
Proof.
  unfold subnet_row. cbn [isCurrent]. rewrite !ushr0, Z.geb_leb.
  intros H. apply andb_prop in H as [H1 H2]. apply Z.leb_le in H1, H2. lia.
Qed.

Lemma rows_nth (text : string) (c base limit : Z) (k : nat) (r : SubnetRow) :
  nth_error (rows (generateSubnetTable text c base limit)) k = Some r ->
  base <= c /\ (Z.of_nat k < Z.min (2 ^ (c - base)) limit)
  /\ r = subnet_row (ipToLong text) c
                    (ushr (band (ipToLong text) (ushr (shl (-1) (32 - base)) 0)) 0)
                    (2 ^ (32 - c)) (Z.of_nat k).
Proof.
  unfold generateSubnetTable.
  destruct (negb (isValidIp text) || (c <? base)) eqn:E.
  - cbn [rows]. destruct k; discriminate.
  - apply orb_false_elim in E as [_ E]. apply Z.ltb_ge in E.
    cbn [rows]. rewrite nth_error_map, nth_error_seq.
    destruct (Nat.ltb_spec k (Z.to_nat (Z.min (2 ^ (c - base)) limit))); [|discriminate].
    cbn [option_map]. intros Hr. injection Hr as <-. split; [exact E|]. split; [lia|reflexivity].
Qed.

(** Two integers with the same low 32 bits agree modulo 2^32. *)
Lemma low_bits_mod (x y : Z) :
  (forall i, 0 <= i < 32 -> Z.testbit x i = Z.testbit y i) -> x mod two32 = y mod two32.
Proof.
  intros H. unfold two32. change 4294967296 with (2 ^ 32).
  apply Z.bits_inj'. intros n Hn. destruct (Z.lt_ge_cases n 32).
  - rewrite !Z.mod_pow2_bits_low by lia. apply H. lia.
  - rewrite !Z.mod_pow2_bits_high by lia. reflexivity.
Qed.

Lemma testbit_mod32 (x i : Z) : 0 <= i < 32 -> Z.testbit (x mod two32) i = Z.testbit x i.
Proof.
  intros Hi. unfold two32. change 4294967296 with (2 ^ 32).
  apply Z.mod_pow2_bits_low. lia.
Qed.

Lemma testbit_toInt32 (x i : Z) : 0 <= i < 32 -> Z.testbit (toInt32 x) i = Z.testbit x i.
Proof.
  intros Hi. rewrite <- (testbit_mod32 (toInt32 x)), toInt32_mod by exact Hi.
  apply testbit_mod32, Hi.
Qed.

(** The shifted mask of the source is the specification's mask for every
    prefix length but 0. *)
Lemma shl_mask (c : Z) : 1 <= c <= 32 -> ushr (shl (-1) (32 - c)) 0 = mask c.
Proof.
  intros Hc.
  assert (H : forallb (fun c => ushr (shl (-1) (32 - c)) 0 =? mask c)
                      (map Z.of_nat (seq 1 32)) = true) by (vm_compute; reflexivity).
  rewrite forallb_forall in H.
  apply Z.eqb_eq, H, in_map_iff. exists (Z.to_nat c). split; [lia|]. apply in_seq. lia.
Qed.

End Facts.

(* ------------------------------------------------------------------ *)
(** ** Facts about binary renderings *)

Module Bin.
Import Js Str IpUtils Spec.

Lemma append_nil_r (s : string) : (s ++ "")%string = s.
Proof. induction s as [|c s IH]; simpl; [reflexivity|now rewrite IH]. Qed.

Lemma append_assoc_s (a b c : string) : ((a ++ b) ++ c)%string = (a ++ (b ++ c))%string.
Proof. induction a as [|x a IH]; simpl; [reflexivity|now rewrite IH]. Qed.

Lemma length_append_s (a b : string) :
  String.length (a ++ b) = (String.length a + String.length b)%nat.
Proof. induction a as [|x a IH]; simpl; [reflexivity|now rewrite IH]. Qed.

(** Two strings of the same length with the same characters are equal. *)
Lemma string_ext (s t : string) :
  String.length s = String.length t ->
  (forall i, (i < String.length s)%nat -> String.get i s = String.get i t) -> s = t.
Proof.
  revert t. induction s as [|c s IH]; intros t Hl Hg; destruct t as [|d t];
    simpl in *; try discriminate; [reflexivity|].
  assert (Hc : Some c = Some d) by exact (Hg 0%nat ltac:(lia)). injection Hc as ->.
  f_equal. apply IH; [lia|]. intros i Hi. exact (Hg (S i) ltac:(lia)).
Qed.

Lemma bits_msb_S (k : nat) (n : Z) :
  bits_msb (S k) n = (bits_msb k (n / 2) ++ String (bit_char (Z.odd n)) "")%string.
Proof. reflexivity. Qed.

Lemma bits_msb_length (k : nat) (n : Z) : String.length (bits_msb k n) = k.
Proof.
  revert n. induction k as [|k IH]; intros n; [reflexivity|].
  simpl bits_msb. rewrite length_append_s, IH. simpl. lia.
Qed.

Lemma bits_msb_get (k : nat) (n : Z) (i : nat) :
  (i < k)%nat ->
  String.get i (bits_msb k n) = Some (bit_char (Z.testbit n (Z.of_nat (k - 1 - i)))).
Proof.
  revert n i. induction k as [|k IH]; intros n i Hi; [lia|].
  simpl bits_msb. destruct (Nat.lt_ge_cases i k) as [Hlt|Hge].
  - rewrite <- String.append_correct1 by (rewrite bits_msb_length; exact Hlt).
    rewrite IH by exact Hlt. do 2 f_equal.
    rewrite Z.div2_bits by lia. f_equal. lia.
  - assert (i = k) as -> by lia.
    pose proof (String.append_correct2 (bits_msb k (n / 2))
                  (String (bit_char (Z.odd n)) "") 0) as H.
    rewrite bits_msb_length in H. simpl in H. rewrite <- H.
    replace (S k - 1 - k)%nat with 0%nat by lia. now rewrite Z.bit0_odd.
Qed.



Lemma bits_msb_split (a b : nat) (n : Z) :
  bits_msb (a + b) n = (bits_msb a (n / 2 ^ Z.of_nat b) ++ bits_msb b n)%string.
Proof.
  revert n. induction b as [|b IH]; intros n.
  - rewrite Nat.add_0_r, append_nil_r. simpl. now rewrite Z.div_1_r.
  - rewrite Nat.add_succ_r. simpl bits_msb. rewrite IH, append_assoc_s.
    do 2 f_equal. rewrite Z.div_div by lia. f_equal.
    change (Z.pow_pos 2 (Pos.of_succ_nat b)) with (2 ^ Z.of_nat (S b)).
    rewrite Nat2Z.inj_succ, Z.pow_succ_r by lia. ring.
Qed.

Lemma bits_msb_zero (k : nat) (n : Z) : n = 0 -> bits_msb k n = zeros k.
Proof.
  intros ->. apply string_ext.
  - rewrite bits_msb_length. induction k; simpl; auto.
  - intros i Hi. rewrite bits_msb_length in Hi. rewrite bits_msb_get by exact Hi.
    rewrite Z.testbit_0_l. revert i Hi. induction k as [|k IH]; intros i Hi; [lia|].
    destruct i; simpl; [reflexivity|]. apply IH. lia.
Qed.

Lemma digit_char_bit (n : Z) : digit_char (n mod 2) = bit_char (Z.odd n).
Proof. rewrite Zmod_odd. now destruct (Z.odd n). Qed.

Lemma log2_half (n : Z) : 2 <= n ->
  Z.to_nat (Z.log2 n) = S (Z.to_nat (Z.log2 (n / 2))).
Proof.
  intros Hn. assert (H1 : 1 <= Z.log2 n).
  { change 1 with (Z.log2 2). apply Z.log2_le_mono. exact Hn. }
  replace (n / 2) with (Z.shiftr n 1) by (rewrite Z.shiftr_div_pow2 by lia; reflexivity).
  rewrite Z.log2_shiftr by lia.
  rewrite Z.max_r by lia. rewrite <- Z2Nat.inj_succ by lia. f_equal. lia.
Qed.

Lemma bin_aux_spec (f : nat) (n : Z) (acc : string) :
  0 <= n < 2 ^ Z.of_nat (S f) ->
  bin_aux (S f) n acc = (bits_msb (S (Z.to_nat (Z.log2 n))) n ++ acc)%string.
Proof.
  revert n acc. induction f as [|f IH]; intros n acc Hn.
  - simpl in Hn. simpl bin_aux. destruct (Z.ltb_spec n 2); [|lia].
    assert (Z.log2 n = 0) as -> by (destruct (Z.eq_dec n 0) as [->|]; [reflexivity|];
      replace n with 1 by lia; reflexivity).
    simpl. now rewrite digit_char_bit.
  - change (bin_aux (S (S f)) n acc) with
      (let acc' := String (digit_char (n mod 2)) acc in
       if n <? 2 then acc' else bin_aux (S f) (n / 2) acc').
    cbv zeta. destruct (Z.ltb_spec n 2).
    + assert (Z.log2 n = 0) as -> by (destruct (Z.eq_dec n 0) as [->|]; [reflexivity|];
        replace n with 1 by lia; reflexivity).
      simpl. now rewrite digit_char_bit.
    + rewrite IH.
      * rewrite (log2_half n) by lia. rewrite (bits_msb_S (S _) n), append_assoc_s.
        simpl. now rewrite digit_char_bit.
      * rewrite Nat2Z.inj_succ, Z.pow_succ_r in Hn by lia.
        split; [apply Z.div_pos; lia|]. apply Z.div_lt_upper_bound; lia.
Qed.

Lemma pad_bin (k : nat) (n : Z) :
  (1 <= k)%nat -> 0 <= n < 2 ^ Z.of_nat k -> pad_start k (bin n) = bits_msb k n.
Proof.
  intros Hk Hn. set (L := Z.to_nat (Z.log2 n)).
  assert (HL : (S L <= k)%nat).
  { destruct (Z.eq_dec n 0) as [->|Hn0]; [unfold L; simpl; lia|].
    assert (Z.log2 n < Z.of_nat k) by (apply Z.log2_lt_pow2; lia). unfold L. lia. }
  assert (Hlt : n < 2 ^ Z.of_nat (S L)).
  { rewrite Nat2Z.inj_succ. unfold L. rewrite Z2Nat.id by apply Z.log2_nonneg.
    destruct (Z.eq_dec n 0) as [->|]; [reflexivity|]. apply Z.log2_spec. lia. }
  unfold bin, pad_start. fold L. rewrite bin_aux_spec by lia. fold L.
  rewrite append_nil_r, bits_msb_length.
  replace k with ((k - S L) + S L)%nat at 2 by lia.
  rewrite bits_msb_split. rewrite (bits_msb_zero _ (n / _)); [reflexivity|].
  apply Z.div_small. lia.
Qed.

Lemma toBinaryString_msb (num : Z) : toBinaryString num = bits_msb 32 (num mod two32).
Proof.
  unfold toBinaryString. rewrite pad_bin by (try pose proof (Facts.ushr0_range num); unfold two32 in *; simpl; lia).
  now rewrite Facts.ushr0.
Qed.








End Bin.

(* ------------------------------------------------------------------ *)
(** ** Facts about the private-range overlap test *)

Module Ovl.
Import Js Str IpUtils Spec Facts.

Lemma high_bits (x j : Z) : 0 <= x < two32 -> 32 <= j -> Z.testbit x j = false.
Proof.
  intros Hx Hj. rewrite <- (Z.mod_small x two32) by exact Hx.
  unfold two32. change 4294967296 with (2 ^ 32). apply Z.mod_pow2_bits_high. lia.
Qed.

Lemma ushr0_low (y j : Z) : 0 <= j < 32 -> Z.testbit (ushr y 0) j = Z.testbit y j.
Proof. intros Hj. rewrite ushr0. apply testbit_mod32, Hj. Qed.

Lemma ushr0_high (y j : Z) : 32 <= j -> Z.testbit (ushr y 0) j = false.
Proof. intros Hj. apply high_bits; [apply ushr0_range|exact Hj]. Qed.




Lemma overlap_lookup_point (x : Z) (rs : list PrivateRange) :
  overlap_lookup x x rs = option_map pr_name (private_lookup x rs).
Proof.
  induction rs as [|r rs IH]; cbn [private_lookup overlap_lookup]; [reflexivity|].
  rewrite andb_comm, !Z.geb_leb.
  destruct ((pr_start r <=? x) && (x <=? pr_end r)); [reflexivity|exact IH].
Qed.

(** [getIpCategory] gives type Private exactly from the range table. *)
Lemma getIpCategory_private (text : string) :
  type (getIpCategory text) = Private ->
  isValidIp text = true /\ exists r, private_lookup (ipToLong text) PRIVATE_RANGES = Some r
                          /\ getIpCategory text =
                             mkIpCategoryInfo Private (Some (pr_name r)) (Some (pr_minCidr r))
                                              (Some "RFC 1918 Private") true.
Proof.
  unfold getIpCategory. destruct (isValidIp text); cbn [negb]; [|discriminate].
  destruct (private_lookup (ipToLong text) PRIVATE_RANGES) as [r|].
  - intros _. split; [reflexivity|]. exists r. split; reflexivity.
  - repeat match goal with |- context [if ?b then _ else _] => destruct b end;
      discriminate.
Qed.

Lemma getIpCategory_rangeName (text : string) :
  rangeName (getIpCategory text) =
  if isValidIp text then option_map pr_name (private_lookup (ipToLong text) PRIVATE_RANGES)
  else None.
Proof.
  unfold getIpCategory. destruct (isValidIp text); cbn [negb]; [|reflexivity].
  destruct (private_lookup (ipToLong text) PRIVATE_RANGES); [reflexivity|].
  repeat match goal with |- context [if ?b then _ else _] => destruct b end; reflexivity.
Qed.

Lemma full_mask_network (x : Z) :
  0 <= x < two32 -> ushr (band x (ushr (shl (-1) (32 - 32)) 0)) 0 = x.
Proof.
  intros Hx. change (ushr (shl (-1) (32 - 32)) 0) with (two32 - 1).
  apply Z.bits_inj'. intros j Hj. destruct (Z.lt_ge_cases j 32).
  - rewrite ushr0_low by lia. unfold band. rewrite Z.land_spec, !testbit_toInt32 by lia.
    replace (Z.testbit (two32 - 1) j) with true; [apply andb_true_r|].
    unfold two32. change (4294967296 - 1) with (Z.ones 32).
    symmetry. apply Z.ones_spec_low. lia.
  - rewrite ushr0_high, high_bits by lia. reflexivity.
Qed.

Lemma full_mask_end (x : Z) :
  0 <= x < two32 -> ushr (bor x (bnot (ushr (shl (-1) (32 - 32)) 0))) 0 = x.
Proof.
  intros Hx. change (ushr (shl (-1) (32 - 32)) 0) with (two32 - 1).
  change (bnot (two32 - 1)) with 0. unfold bor. rewrite Z.lor_0_r, ushr0.
  unfold toInt32. rewrite (Z.mod_small x two32) by exact Hx.
  destruct (Z.ltb_spec x two31).
  - now apply Z.mod_small.
  - replace (x - two32) with (x + (-1) * two32) by ring. rewrite Z.mod_add by (unfold two32; lia).
    now apply Z.mod_small.
Qed.

End Ovl.

(* ------------------------------------------------------------------ *)
(** ** Facts about the subnet table *)

Module Sub.
Import Js Str IpUtils Spec Facts.

(** The prefix-[b] network of a 32-bit address is the address rounded down
    to a multiple of [2^(32-b)]. *)
Lemma network_floor (a b : Z) :
  0 <= a < two32 -> 0 <= b <= 32 -> network a b = a / 2 ^ (32 - b) * 2 ^ (32 - b).
Proof.
  intros Ha Hb. rewrite <- Z.shiftl_mul_pow2, <- Z.shiftr_div_pow2 by lia.
  apply Z.bits_inj'. intros j Hj. unfold network, mask. rewrite !Z.land_spec.
  destruct (Z.lt_ge_cases j (32 - b)).
  - rewrite !Z.shiftl_spec_low by lia. now rewrite andb_false_r.
  - rewrite !Z.shiftl_spec_high by lia. rewrite Z.shiftr_spec by lia.
    replace (j - (32 - b) + (32 - b)) with j by ring.
    destruct (Z.lt_ge_cases j 32).
    + rewrite (Z.ones_spec_low 32 (j - (32 - b))), (Z.ones_spec_low 32 j) by lia.
      now rewrite andb_true_r.
    + rewrite (Z.ones_spec_high 32 j), Ovl.high_bits by lia. now rewrite !andb_false_r.
Qed.

(** The base network of [generateSubnetTable] for a prefix [b >= 1]. *)
Lemma base_network (a b : Z) :
  0 <= a < two32 -> 1 <= b <= 32 ->
  ushr (band a (ushr (shl (-1) (32 - b)) 0)) 0 = a / 2 ^ (32 - b) * 2 ^ (32 - b).
Proof.
  intros Ha Hb. rewrite shl_mask by lia. rewrite ushr0.
  assert (Hn : network a b mod two32 = network a b).
  { apply Z.mod_small. rewrite network_floor by lia.
    assert (0 < 2 ^ (32 - b)) by (apply Z.pow_pos_nonneg; lia).
    split; [apply Z.mul_nonneg_nonneg; [apply Z.div_pos|]; lia|].
    pose proof (Z.mul_div_le a (2 ^ (32 - b))). lia. }
  rewrite <- network_floor by lia. rewrite <- Hn. apply low_bits_mod.
  intros i Hi. unfold band, network. rewrite !Z.land_spec, !testbit_toInt32 by lia.
  reflexivity.
Qed.

Lemma rows_spec (text : string) (c b limit : Z) (k : nat) (r : SubnetRow) :
  1 <= b -> c <= 32 ->
  nth_error (rows (generateSubnetTable text c b limit)) k = Some r ->
  let a := ipToLong text in
  let inc := 2 ^ (32 - c) in
  let n := a / 2 ^ (32 - b) * 2 ^ (32 - b) + Z.of_nat k * inc in
  index r = Z.of_nat k + 1 /\
  rowNetworkAddress r = longToIp n /\
  rowBroadcastAddress r = longToIp (n + inc - 1) /\
  range r = (if c <? 31 then (longToIp (n + 1) ++ " - " ++ longToIp (n + inc - 2))%string
             else "N/A") /\
  (isCurrent r = true <-> n <= a <= n + inc - 1) /\
  a / 2 ^ (32 - b) * 2 ^ (32 - b) <= n /\
  n + inc - 1 <= a / 2 ^ (32 - b) * 2 ^ (32 - b) + 2 ^ (32 - b) - 1.
Proof.
  intros Hb Hc H. apply rows_nth in H as (Hbc & Hk & ->). intros a inc n.
  pose proof (ipToLong_range text) as Ha. fold a in Ha |- *.
  rewrite base_network by (exact Ha || lia).
  set (P := 2 ^ (32 - b)) in *. set (q := a / P) in *.
  assert (HP : 0 < P) by (apply Z.pow_pos_nonneg; lia).
  assert (Hinc : 1 <= inc) by (unfold inc; change 1 with (2 ^ 0); apply Z.pow_le_mono_r; lia).
  assert (HPinc : P = 2 ^ (c - b) * inc).
  { unfold P, inc. rewrite <- Z.pow_add_r by lia. f_equal. ring. }
  assert (HbP : 2 ^ b * P = two32).
  { unfold P. rewrite <- Z.pow_add_r by lia. replace (b + (32 - b)) with 32 by ring. reflexivity. }
  assert (Hq : 0 <= q < 2 ^ b).
  { unfold q. split; [apply Z.div_pos; lia|]. apply Z.div_lt_upper_bound; lia. }
  assert (Hk' : 0 <= Z.of_nat k < 2 ^ (c - b)) by lia.
  assert (Hend : n + inc <= q * P + P) by (unfold n; nia).
  assert (Htop : q * P + P <= two32) by nia.
  assert (Hn0 : 0 <= q * P) by nia.
  unfold subnet_row. cbv zeta. change (2 ^ (32 - c)) with inc.
  assert (E1 : ushr (q * P + Z.of_nat k * inc) 0 = n).
  { rewrite ushr0. apply Z.mod_small. fold n. unfold n. lia. }
  rewrite E1.
  assert (E2 : ushr (n + inc - 1) 0 = n + inc - 1).
  { rewrite ushr0. apply Z.mod_small. unfold n in *. lia. }
  rewrite E2. cbn [index rowNetworkAddress rowBroadcastAddress range isCurrent].
  split; [reflexivity|]. split; [reflexivity|]. split; [reflexivity|]. split.
  - destruct (Z.ltb_spec c 31); [|reflexivity].
    assert (Hinc4 : 2 <= inc) by (unfold inc; change 2 with (2 ^ 1); apply Z.pow_le_mono_r; lia).
    rewrite !ushr0, !Z.mod_small by (unfold n in *; lia).
    replace (n + inc - 1 - 1) with (n + inc - 2) by ring. reflexivity.
  - split; [|unfold n in *; lia].
    rewrite Z.geb_leb. split.
    + intros E. apply andb_prop in E as [E3 E4]. apply Z.leb_le in E3, E4. lia.
    + intros [E3 E4]. apply andb_true_intro. split; apply Z.leb_le; lia.
Qed.

Lemma table_fields (text : string) (c b limit : Z) :
  isValidIp text = true -> b <= c ->
  let t := generateSubnetTable text c b limit in
  totalCount t = 2 ^ (c - b) /\
  List.length (rows t) = Z.to_nat (Z.min (2 ^ (c - b)) limit) /\
  truncated t = (2 ^ (c - b) >? limit).
Proof.
  intros Hv Hbc t. unfold t, generateSubnetTable. rewrite Hv.
  destruct (Z.ltb_spec c b); [lia|]. cbn [negb orb rows totalCount truncated].
  rewrite length_map, length_seq. auto.
Qed.

Lemma current_unique (text : string) (c b limit : Z) :
  IpUtils.isValidIp text = true -> 1 <= b <= c -> c <= 32 -> 2 ^ (c - b) <= limit ->
  exists k r,
    nth_error (rows (IpUtils.generateSubnetTable text c b limit)) k = Some r /\
    isCurrent r = true /\
    forall k' r', nth_error (rows (IpUtils.generateSubnetTable text c b limit)) k' = Some r' ->
                  isCurrent r' = true -> k' = k.
Proof.
  intros Hv Hb Hc Hl.
  destruct (Sub.table_fields text c b limit Hv ltac:(lia)) as (_ & Hlen & _).
  pose proof (Facts.ipToLong_range text) as Ha.
  set (a := IpUtils.ipToLong text) in *.
  assert (HP : 0 < 2 ^ (32 - b)) by (apply Z.pow_pos_nonneg; lia).
  assert (Hinc : 0 < 2 ^ (32 - c)) by (apply Z.pow_pos_nonneg; lia).
  assert (HPinc : 2 ^ (32 - b) = 2 ^ (c - b) * 2 ^ (32 - c)).
  { rewrite <- Z.pow_add_r by lia. f_equal. ring. }
  set (P := 2 ^ (32 - b)) in *. set (inc := 2 ^ (32 - c)) in *.
  set (kz := a mod P / inc).
  assert (Hkz : 0 <= kz < 2 ^ (c - b)).
  { unfold kz. split; [apply Z.div_pos; [apply Z.mod_pos_bound|]; lia|].
    apply Z.div_lt_upper_bound; [lia|]. pose proof (Z.mod_pos_bound a P HP). lia. }
  assert (Hk : (Z.to_nat kz < List.length (rows (IpUtils.generateSubnetTable text c b limit)))%nat)
    by (rewrite Hlen; lia).
  apply nth_error_Some in Hk. destruct (nth_error _ (Z.to_nat kz)) as [r|] eqn:Er; [|congruence].
  exists (Z.to_nat kz), r.
  pose proof (Sub.rows_spec text c b limit _ r ltac:(lia) Hc Er) as (_ & _ & _ & _ & Hcur & _).
  fold a inc P in Hcur. rewrite Z2Nat.id in Hcur by lia.
  split; [exact Er|]. split.
  - apply Hcur. unfold kz. clear - HP Hinc.
    pose proof (Z.div_mod a P ltac:(lia)). pose proof (Z.mod_pos_bound a P HP).
    pose proof (Z.div_mod (a mod P) inc ltac:(lia)). pose proof (Z.mod_pos_bound (a mod P) inc Hinc).
    lia.
  - intros k' r' E' C'.
    pose proof (Sub.rows_spec text c b limit _ r' ltac:(lia) Hc E') as (_ & _ & _ & _ & Hcur' & _).
    fold a inc P in Hcur'. apply Hcur' in C'.
    assert (Hin : a / P * P + kz * inc <= a <= a / P * P + kz * inc + inc - 1).
    { unfold kz. clear - HP Hinc.
      pose proof (Z.div_mod a P ltac:(lia)). pose proof (Z.mod_pos_bound a P HP).
      pose proof (Z.div_mod (a mod P) inc ltac:(lia)). pose proof (Z.mod_pos_bound (a mod P) inc Hinc).
      lia. }
    apply Nat2Z.inj. rewrite Z2Nat.id by lia.
    assert (- inc < (Z.of_nat k' - kz) * inc < inc) by nia.
    assert (Z.of_nat k' - kz = 0) by nia. lia.
Qed.

End Sub.

(* ------------------------------------------------------------------ *)
(** ** Facts about the component *)

Module Comp.
Import Js Str IpUtils Spec Facts Llm Calc.

Lemma calculateSubnet_valid (text : string) (c p : Z) :
  isValidIp text = true ->
  let d := calculateSubnet text c (Some p) in
  SubnetDetails_isValid d = true /\ baseCidr d = p /\
  binaryIp d = toBinaryString (ipToLong text) /\
  binaryMask d = toBinaryString (shl (-1) (32 - c)).
Proof.
  intros H d. unfold d, calculateSubnet. rewrite H. cbn [negb].
  repeat split; reflexivity.
Qed.

Lemma calculateSubnet_invalid (text : string) (c : Z) (p : option Z) :
  isValidIp text = false -> SubnetDetails_isValid (calculateSubnet text c p) = false.
Proof. intros H. unfold calculateSubnet. now rewrite H. Qed.

Lemma result_valid_iff (st : Component) :
  SubnetDetails_isValid (result st) = isValidIp (ipInput st).
Proof.
  unfold result. destruct (isValidIp (ipInput st)) eqn:E.
  - now apply calculateSubnet_valid.
  - now apply calculateSubnet_invalid.
Qed.

Lemma isValid_inv (st : Component) :
  Calc.isValid st = true ->
  isValidIp (ipInput st) = true /\ configError st = None /\
  parentCidrInput st <= cidrInput st.
Proof.
  unfold Calc.isValid, result_valid. rewrite result_valid_iff.
  destruct (isValidIp (ipInput st)); [|discriminate]. cbn [negb].
  destruct (configError st); [discriminate|]. rewrite Z.geb_leb, Z.leb_le. auto.
Qed.

Lemma subnetTable_valid (st : Component) :
  Calc.isValid st = true ->
  subnetTable st = generateSubnetTable (ipInput st) (cidrInput st) (parentCidrInput st) 256.
Proof.
  intros H. pose proof (isValid_inv st H) as (Hv & _ & _).
  unfold subnetTable. rewrite H. cbn [negb]. unfold result.
  now rewrite (proj1 (proj2 (calculateSubnet_valid (ipInput st) (cidrInput st)
                                (parentCidrInput st) Hv))).
Qed.

Lemma private_lookup_in (x : Z) (rs : list PrivateRange) (r : PrivateRange) :
  private_lookup x rs = Some r -> In r rs /\ pr_start r <= x <= pr_end r.
Proof.
  induction rs as [|r' rs IH]; cbn [private_lookup]; [discriminate|].
  destruct ((x >=? pr_start r') && (x <=? pr_end r')) eqn:E.
  - intros Hr. injection Hr as <-. apply andb_prop in E as [E1 E2].
    rewrite Z.geb_leb, Z.leb_le in E1. apply Z.leb_le in E2. split; [now left|lia].
  - intros Hr. destruct (IH Hr). split; [now right|assumption].
Qed.



(** Each private range is an aligned block of [2^(32 - minCidr)] addresses. *)
Lemma ranges_aligned (r : PrivateRange) :
  In r PRIVATE_RANGES ->
  1 <= pr_minCidr r <= 32 /\
  pr_start r = pr_start r / 2 ^ (32 - pr_minCidr r) * 2 ^ (32 - pr_minCidr r) /\
  pr_end r = pr_start r + 2 ^ (32 - pr_minCidr r) - 1 /\
  pr_name r <> "".
Proof.
  cbn [In PRIVATE_RANGES]. intros [<-|[<-|[<-|[]]]]; cbn;
    (split; [lia|split; [reflexivity|split; [reflexivity|discriminate]]]).
Qed.

Lemma floor_in_block (x start t : Z) :
  0 <= t -> start = start / 2 ^ t * 2 ^ t -> start <= x <= start + 2 ^ t - 1 ->
  x / 2 ^ t * 2 ^ t = start.
Proof.
  intros Ht Hs Hx. assert (HT : 0 < 2 ^ t) by (apply Z.pow_pos_nonneg; lia).
  set (T := 2 ^ t) in *. set (q := start / T) in *.
  assert (x / T = q).
  { symmetry. apply (Z.div_unique_pos x T q (x - q * T)); lia. }
  lia.
Qed.

(** Blocks nest: the /p block of an address lies inside its /m block when
    [m <= p], with [s = 32 - p] and [t = 32 - m]. *)
Lemma floor_nest (a s t : Z) :
  0 <= s <= t -> 0 <= a ->
  a / 2 ^ t * 2 ^ t <= a / 2 ^ s * 2 ^ s /\
  a / 2 ^ s * 2 ^ s + 2 ^ s <= a / 2 ^ t * 2 ^ t + 2 ^ t.
Proof.
  intros Hst Ha.
  assert (HS : 0 < 2 ^ s) by (apply Z.pow_pos_nonneg; lia).
  assert (HD : 0 < 2 ^ (t - s)) by (apply Z.pow_pos_nonneg; lia).
  assert (HT : 2 ^ t = 2 ^ s * 2 ^ (t - s)) by (rewrite <- Z.pow_add_r by lia; f_equal; ring).
  rewrite HT, <- Z.div_div by lia.
  set (S := 2 ^ s) in *. set (D := 2 ^ (t - s)) in *. set (u := a / S).
  pose proof (Z.div_mod u D ltac:(lia)). pose proof (Z.mod_pos_bound u D HD).
  set (v := u / D) in *. set (w := u mod D) in *.
  split; nia.
Qed.

Lemma mask_bits (p j : Z) :
  1 <= p <= 32 -> 0 <= j < 32 -> Z.testbit (mask p) j = (32 - p <=? j).
Proof.
  intros Hp Hj. unfold mask. rewrite Z.land_spec, (Z.ones_spec_low 32 j) by lia.
  rewrite andb_true_r. destruct (Z.leb_spec (32 - p) j).
  - rewrite Z.shiftl_spec_high, Z.ones_spec_low by lia. reflexivity.
  - rewrite Z.shiftl_spec_low by lia. reflexivity.
Qed.



(** For a private address the component is valid only with a parent prefix
    of at least the range's [minCidr]. *)
Lemma private_parent (st : Component) :
  type (ipInfo st) = Private -> configError st = None ->
  exists r, In r PRIVATE_RANGES /\ rangeName (ipInfo st) = Some (pr_name r) /\
            pr_start r <= ipToLong (ipInput st) <= pr_end r /\
            pr_minCidr r <= parentCidrInput st.
Proof.
  intros Hp Hc. unfold ipInfo in Hp.
  destruct (Ovl.getIpCategory_private _ Hp) as (_ & r & Hl & Hi).
  destruct (private_lookup_in _ _ _ Hl) as [Hin Hx].
  destruct (ranges_aligned r Hin) as (Hm & _).
  exists r. split; [exact Hin|]. unfold ipInfo. rewrite Hi. split; [reflexivity|]. split; [exact Hx|].
  unfold configError, ipInfo in Hc. rewrite Hi in Hc. cbn [type minCidr] in Hc.
  destruct (negb (pr_minCidr r =? 0) && (parentCidrInput st <? pr_minCidr r)) eqn:E;
    [discriminate|].
  apply andb_false_iff in E as [E|E].
  - apply negb_false_iff, Z.eqb_eq in E. lia.
  - apply Z.ltb_ge in E. exact E.
Qed.


Lemma bit_details_length (c b i : Z) (s : string) :
  List.length (bit_details c b i s) = String.length s.
Proof. revert i. induction s as [|ch s IH]; intros i; simpl; [reflexivity|now rewrite IH]. Qed.

Lemma bit_details_nth (c b i : Z) (s : string) (k : nat) :
  nth_error (bit_details c b i s) k =
  option_map (fun ch => mkBitDetail (String ch EmptyString)
                 (if i + Z.of_nat k <? b then bit_network
                  else if i + Z.of_nat k <? c then bit_subnet else bit_host))
             (String.get k s).
Proof.
  revert i k. induction s as [|ch s IH]; intros i k; [destruct k; reflexivity|].
  destruct k as [|k]; cbn [bit_details nth_error String.get option_map].
  - now rewrite Z.add_0_r.
  - rewrite IH. now replace (i + 1 + Z.of_nat k) with (i + Z.of_nat (S k)) by lia.
Qed.

Lemma split_chars_length (s : string) : List.length (split_chars s) = String.length s.
Proof.
  unfold split_chars. rewrite length_map.
  induction s as [|ch s IH]; simpl; [reflexivity|now rewrite IH].
Qed.

Lemma split_chars_nth (s : string) (k : nat) :
  nth_error (split_chars s) k = option_map (fun ch => String ch EmptyString) (String.get k s).
Proof.
  unfold split_chars. rewrite nth_error_map. f_equal.
  revert k. induction s as [|ch s IH]; intros k; destruct k; simpl; auto.
Qed.

Lemma binaryIp_get (st : Component) (i : nat) :
  isValidIp (ipInput st) = true -> (i < 32)%nat ->
  String.get i (binaryIp (result st)) =
  Some (if Z.testbit (ipToLong (ipInput st)) (31 - Z.of_nat i) then "1"%char else "0"%char).
Proof.
  intros Hv Hi. unfold result.
  rewrite (proj1 (proj2 (proj2 (calculateSubnet_valid _ (cidrInput st) (parentCidrInput st) Hv)))).
  rewrite Bin.toBinaryString_msb, Bin.bits_msb_get by exact Hi.
  rewrite testbit_mod32 by lia. now replace (Z.of_nat (32 - 1 - i)) with (31 - Z.of_nat i) by lia.
Qed.

Lemma binaryMask_get (st : Component) (i : nat) :
  isValidIp (ipInput st) = true -> 1 <= cidrInput st <= 32 -> (i < 32)%nat ->
  String.get i (binaryMask (result st)) =
  Some (if Z.of_nat i <? cidrInput st then "1"%char else "0"%char).
Proof.
  intros Hv Hc Hi. unfold result.
  rewrite (proj2 (proj2 (proj2 (calculateSubnet_valid _ (cidrInput st) (parentCidrInput st) Hv)))).
  rewrite Bin.toBinaryString_msb, Bin.bits_msb_get by exact Hi.
  rewrite <- ushr0, shl_mask by exact Hc. rewrite mask_bits by lia.
  replace (Z.of_nat (32 - 1 - i)) with (31 - Z.of_nat i) by lia.
  destruct (Z.leb_spec (32 - cidrInput st) (31 - Z.of_nat i)), (Z.ltb_spec (Z.of_nat i) (cidrInput st));
    try reflexivity; lia.
Qed.

Lemma binary_lengths (st : Component) :
  isValidIp (ipInput st) = true ->
  String.length (binaryIp (result st)) = 32%nat /\ String.length (binaryMask (result st)) = 32%nat.
Proof.
  intros Hv. unfold result.
  destruct (calculateSubnet_valid (ipInput st) (cidrInput st) (parentCidrInput st) Hv)
    as (_ & _ & -> & ->).
  rewrite !Bin.toBinaryString_msb, !Bin.bits_msb_length. auto.
Qed.

End Comp.

(* ------------------------------------------------------------------ *)
(** ** Address codec *)

Import Js Str IpUtils.

(** C4: for every string accepted by [isValidIp], [longToIp (ipToLong S) = S]. *)
Theorem ipToLong_longToIp_roundtrip (text : string) :
  isValidIp text = true -> longToIp (ipToLong text) = text.
Proof. apply Facts.longToIp_ipToLong. Qed.

Lemma ipToLong_longToIp_roundtrip_witness :
  isValidIp "192.168.1.10" = true /\ longToIp (ipToLong "192.168.1.10") = "192.168.1.10".
Proof.
  assert (H : isValidIp "192.168.1.10" = true) by (vm_compute; reflexivity).
  split; [exact H | exact (ipToLong_longToIp_roundtrip "192.168.1.10" H)].
Defined.

(** C5: [isValidIp text] holds iff [text.split('.')] has exactly four parts,
    each the canonical decimal rendering of an integer in [0,255]; it rejects
    "256.1.1.1", "1.2.3", "1.2.3.04", "1.2.3.4.5", "a.b.c.d", and every string
    with a part carrying a leading zero, whitespace or a sign. *)
Theorem isValidIp_characterisation :
  (forall text, isValidIp text = true <->
     List.length (split_dot text) = 4%nat /\ Forall Spec.canonical_octet (split_dot text))
  /\ map isValidIp ["256.1.1.1"; "1.2.3"; "1.2.3.04"; "1.2.3.4.5"; "a.b.c.d"]
     = [false; false; false; false; false]
  /\ (forall text p, In p (split_dot text) ->
        Spec.has_leading_zero p || Spec.has_ws_or_sign p = true ->
        isValidIp text = false).
Proof.
  split; [exact Facts.isValidIp_iff|]. split; [vm_compute; reflexivity|].
  intros text p Hin Hbad. destruct (isValidIp text) eqn:Hv; [|reflexivity].
  apply Facts.isValidIp_iff in Hv as [_ Hf]. rewrite Forall_forall in Hf.
  destruct (Hf p Hin) as (n & Hn & <-).
  pose proof (Facts.octet_check
    (fun n => negb (Spec.has_leading_zero (dec n) || Spec.has_ws_or_sign (dec n)))
    ltac:(vm_compute; reflexivity) n Hn) as Hok.
  cbv beta in Hok. rewrite Hbad in Hok. discriminate.
Qed.

(* ------------------------------------------------------------------ *)
(** ** Classifier *)

(** C6: [getIpCategory] returns the category, range name and minimum prefix
    of the first block, in the order 10/8, 172.16/12, 192.168/16, 127/8,
    169.254/16, 100.64/10, 224/4, 240/4, that contains the address, Public
    when none does, Unknown for an invalid string; with the spec's examples. *)
Theorem getIpCategory_priority :
  (forall text, let c := getIpCategory text in
     (type c, rangeName c, minCidr c) = Spec.classify text)
  /\ (let c := getIpCategory "10.5.0.1" in
      (type c, rangeName c, minCidr c) = (Private, Some "10.0.0.0/8", Some 8))
  /\ map (fun t => type (getIpCategory t))
       ["8.8.8.8"; "127.0.0.1"; "169.254.1.1"; "100.64.0.1"; "224.0.0.1"]
     = [Public; Loopback; LinkLocal; CGNAT; Multicast].
Proof.
  split; [|split; vm_compute; reflexivity].
  intros text. unfold getIpCategory, Spec.classify.
  destruct (isValidIp text); [|reflexivity]. simpl negb. cbv iota.
  generalize (ipToLong text) as x. intros x.
  unfold private_lookup, PRIVATE_RANGES, Spec.blocks, Spec.rfc1918, find, app.
  unfold Spec.in_block. rewrite !Z.geb_leb.
  unfold Spec.b_end, Spec.b_start. cbn -[Z.leb longToIp dec].
  repeat match goal with
         | |- context [if ?c then _ else _] =>
             lazymatch c with
             | context [x] => destruct c
             end
         end; vm_compute; reflexivity.
Qed.

(* ------------------------------------------------------------------ *)
(** ** Subnet calculator *)

(** C3 (as stated): on an invalid address every numeric field of the
    result of [calculateSubnet] is 0 and every string field empty. *)
Lemma calculateSubnet_invalid_not_blank :
  isValidIp "a.b.c.d" = false
  /\ Spec.details_blank (calculateSubnet "a.b.c.d" 24 None) = false
  /\ cidr (calculateSubnet "a.b.c.d" 24 None) = 24
  /\ ip (calculateSubnet "a.b.c.d" 24 None) = "a.b.c.d"
  /\ networkClass (calculateSubnet "a.b.c.d" 24 None) = "-".
Proof. vm_compute. repeat split. Qed.

(** C3 (amended): on an invalid address [calculateSubnet] returns
    [isValid = false], echoes the input address and prefix in [ip] and
    [cidr], puts "-" in [networkClass], 0 in every other numeric field and
    the empty string in every other string field; [generateSubnetTable]
    returns no rows, [totalCount = 0] and [truncated = false] on an invalid
    address and whenever [cidr < baseCidr]. *)
Theorem invalid_input_results :
  (forall text c parentCidr, isValidIp text = false ->
     calculateSubnet text c parentCidr
     = mkSubnetDetails text c "" "" "" "" "" 0 0 0 0 "-" 0 0 "" "" "" false)
  /\ (forall text c base limit, isValidIp text = false \/ c < base ->
     generateSubnetTable text c base limit = mkSubnetTable [] 0 false).
Proof.
  split.
  - intros text c parentCidr Hv. unfold calculateSubnet. now rewrite Hv.
  - intros text c base limit [Hv|Hlt]; unfold generateSubnetTable.
    + now rewrite Hv.
    + destruct (Z.ltb_spec c base); [|lia]. now rewrite orb_true_r.
Qed.

Lemma invalid_input_results_witness :
  calculateSubnet "1.2.3" 24 None
  = mkSubnetDetails "1.2.3" 24 "" "" "" "" "" 0 0 0 0 "-" 0 0 "" "" "" false
  /\ generateSubnetTable "1.2.3" 26 24 256 = mkSubnetTable [] 0 false
  /\ generateSubnetTable "10.0.0.1" 16 24 256 = mkSubnetTable [] 0 false.
Proof.
  destruct invalid_input_results as [Hc Ht]. split; [|split].
  - apply Hc. vm_compute. reflexivity.
  - apply Ht. left. vm_compute. reflexivity.
  - apply Ht. right. lia.
Defined.

(** C9: [baseCidr] is [parentCidr] when supplied and otherwise the legacy
    class default of the first octet (A 8, B 16, C 24, D and E 0);
    [borrowedBits] is [cidr - baseCidr] when [baseCidr > 0] and
    [cidr >= baseCidr], 0 otherwise; [subnetsCreated = 2 ^ borrowedBits]. *)
Theorem calculateSubnet_borrowed_bits (text : string) (c : Z) (parentCidr : option Z) :
  isValidIp text = true ->
  let r := calculateSubnet text c parentCidr in
  baseCidr r = match parentCidr with
               | Some p => p
               | None => Spec.legacy_default (ipToLong text / 2 ^ 24)
               end
  /\ borrowedBits r = (if (0 <? baseCidr r) && (baseCidr r <=? c) then c - baseCidr r else 0)
  /\ subnetsCreated r = 2 ^ borrowedBits r.
Proof.
  intros Hv.
  destruct (Facts.valid_parts text Hv) as (n1 & n2 & n3 & n4 & H1 & H2 & H3 & H4 & Hs).
  rewrite (Facts.first_octet text n1 n2 n3 n4 H1 H2 H3 H4 Hs).
  unfold calculateSubnet. rewrite Hv. simpl negb. cbv iota zeta.
  rewrite Hs. cbn [hd]. rewrite Facts.parse_dec by exact H1.
  rewrite <- (Facts.getNetworkClass_default n1 H1).
  cbn [baseCidr borrowedBits subnetsCreated].
  rewrite Z.gtb_ltb, Z.geb_leb. repeat split.
Qed.

Lemma calculateSubnet_borrowed_bits_witness :
  isValidIp "172.16.5.4" = true /\
  let r := calculateSubnet "172.16.5.4" 20 None in
  baseCidr r = Spec.legacy_default (ipToLong "172.16.5.4" / 2 ^ 24)
  /\ borrowedBits r = (if (0 <? baseCidr r) && (baseCidr r <=? 20) then 20 - baseCidr r else 0)
  /\ subnetsCreated r = 2 ^ borrowedBits r.
Proof.
  assert (H : isValidIp "172.16.5.4" = true) by (vm_compute; reflexivity).
  split; [exact H | exact (calculateSubnet_borrowed_bits "172.16.5.4" 20 None H)].
Defined.

(** C8: [hostBits = 32 - cidr], [hostsPerSubnet = max(0, 2^hostBits - 2)];
    [firstHost]/[lastHost] are the text of network+1 / broadcast-1 (as
    unsigned 32-bit) when [cidr < 31] and "N/A" otherwise; /24 gives 254
    hosts, /31 gives 0 hosts and N/A, /32 gives network = broadcast = the
    address. *)
Theorem calculateSubnet_host_range (text : string) (c : Z) (parentCidr : option Z) :
  isValidIp text = true -> 0 <= c <= 32 ->
  let r := calculateSubnet text c parentCidr in
  hostBits r = 32 - c
  /\ hostsPerSubnet r = Z.max 0 (2 ^ (32 - c) - 2)
  /\ (exists net bc, 0 <= net < 2 ^ 32 /\ 0 <= bc < 2 ^ 32
        /\ networkAddress r = longToIp net /\ broadcastAddress r = longToIp bc
        /\ firstHost r = (if c <? 31 then longToIp (net + 1) else "N/A")
        /\ lastHost r = (if c <? 31 then longToIp (bc - 1) else "N/A"))
  /\ (c = 24 -> hostsPerSubnet r = 254)
  /\ (c = 31 -> hostsPerSubnet r = 0 /\ firstHost r = "N/A" /\ lastHost r = "N/A")
  /\ (c = 32 -> networkAddress r = text /\ broadcastAddress r = text).
Proof.
  intros Hv Hc. unfold calculateSubnet. rewrite Hv. simpl negb. cbv iota zeta.
  cbn [hostBits hostsPerSubnet networkAddress broadcastAddress firstHost lastHost].
  assert (Hh : (if (if 32 - c >? 0 then 2 ^ (32 - c) - 2 else 0) >? 0
                then (if 32 - c >? 0 then 2 ^ (32 - c) - 2 else 0) else 0)
               = Z.max 0 (2 ^ (32 - c) - 2)).
  { destruct (Z.eq_dec c 32) as [->|Hne]; [reflexivity|].
    assert (Hp : 2 <= 2 ^ (32 - c)).
    { change 2 with (2 ^ 1) at 1. apply Z.pow_le_mono_r; lia. }
    rewrite !Z.gtb_ltb. rewrite (proj2 (Z.ltb_lt 0 (32 - c))) by lia. cbv iota.
    destruct (Z.ltb_spec 0 (2 ^ (32 - c) - 2)); lia. }
  rewrite Hh. split; [reflexivity|]. split; [reflexivity|]. split; [|split; [|split]].
  - set (m := shl (-1) (32 - c)).
    set (net := ushr (band (ipToLong text) m) 0).
    set (bc := ushr (bor net (bnot m)) 0).
    exists net, bc.
    pose proof (Facts.ushr0_range (band (ipToLong text) m)) as Hn.
    pose proof (Facts.ushr0_range (bor net (bnot m))) as Hb.
    fold net in Hn. fold bc in Hb. unfold two32 in *.
    repeat split; try lia;
      destruct (c <? 31); try reflexivity; rewrite Facts.ushr0; apply Facts.longToIp_mod.
  - intros ->. reflexivity.
  - intros ->. repeat split.
  - intros ->. change (shl (-1) (32 - 32)) with (-1).
    assert (Hx : ushr (band (ipToLong text) (-1)) 0 = ipToLong text).
    { unfold band. change (toInt32 (-1)) with (-1). rewrite Z.land_m1_r, Facts.ushr0,
        Facts.toInt32_mod. apply Z.mod_small, Facts.ipToLong_range. }
    rewrite Hx.
    assert (Hy : ushr (bor (ipToLong text) (bnot (-1))) 0 = ipToLong text).
    { unfold bor. change (toInt32 (bnot (-1))) with 0. rewrite Z.lor_0_r, Facts.ushr0,
        Facts.toInt32_mod. apply Z.mod_small, Facts.ipToLong_range. }
    rewrite Hy, Facts.longToIp_ipToLong by exact Hv. split; reflexivity.
Qed.

Lemma calculateSubnet_host_range_witness :
  isValidIp "192.168.1.10" = true /\ 0 <= 24 <= 32 /\
  let r := calculateSubnet "192.168.1.10" 24 None in
  hostBits r = 32 - 24
  /\ hostsPerSubnet r = Z.max 0 (2 ^ (32 - 24) - 2)
  /\ (exists net bc, 0 <= net < 2 ^ 32 /\ 0 <= bc < 2 ^ 32
        /\ networkAddress r = longToIp net /\ broadcastAddress r = longToIp bc
        /\ firstHost r = (if 24 <? 31 then longToIp (net + 1) else "N/A")
        /\ lastHost r = (if 24 <? 31 then longToIp (bc - 1) else "N/A"))
  /\ (24 = 24 -> hostsPerSubnet r = 254)
  /\ (24 = 31 -> hostsPerSubnet r = 0 /\ firstHost r = "N/A" /\ lastHost r = "N/A")
  /\ (24 = 32 -> networkAddress r = "192.168.1.10" /\ broadcastAddress r = "192.168.1.10").
Proof.
  assert (H : isValidIp "192.168.1.10" = true) by (vm_compute; reflexivity).
  split; [exact H|]. split; [lia|].
  exact (calculateSubnet_host_range "192.168.1.10" 24 None H ltac:(lia)).
Defined.

(** For every prefix length in [1,32], the mask, network and broadcast that
    [calculateSubnet] reports are those of the specification. *)
Lemma calculateSubnet_mask_from_1 (text : string) (c : Z) (parentCidr : option Z) :
  isValidIp text = true -> 1 <= c <= 32 ->
  let a := ipToLong text in
  let r := calculateSubnet text c parentCidr in
  subnetMask r = longToIp (Spec.mask c)
  /\ networkAddress r = longToIp (Spec.network a c)
  /\ broadcastAddress r = longToIp (Spec.broadcast a c).
Proof.
  intros Hv Hc. unfold calculateSubnet. rewrite Hv. simpl negb. cbv iota zeta.
  cbn [subnetMask networkAddress broadcastAddress].
  pose proof (Facts.shl_mask c Hc) as Hm. rewrite Facts.ushr0 in Hm.
  set (m := shl (-1) (32 - c)) in *.
  assert (Bm : forall i, 0 <= i < 32 -> Z.testbit m i = Z.testbit (Spec.mask c) i).
  { intros i Hi. rewrite <- Hm. symmetry. apply Facts.testbit_mod32, Hi. }
  assert (Hn : ushr (band (ipToLong text) m) 0 mod two32
               = Spec.network (ipToLong text) c mod two32).
  { rewrite Facts.ushr0, Z.mod_mod by (unfold two32; lia).
    apply Facts.low_bits_mod. intros i Hi. unfold band, Spec.network.
    rewrite !Z.land_spec, !Facts.testbit_toInt32, Bm by exact Hi. reflexivity. }
  split; [|split].
  - rewrite <- Facts.longToIp_mod, Hm. reflexivity.
  - rewrite <- (Facts.longToIp_mod (ushr _ 0)), <- (Facts.longToIp_mod (Spec.network _ _)).
    now rewrite Hn.
  - rewrite <- (Facts.longToIp_mod (ushr _ 0)), <- (Facts.longToIp_mod (Spec.broadcast _ _)).
    f_equal. rewrite Facts.ushr0, Z.mod_mod by (unfold two32; lia).
    apply Facts.low_bits_mod. intros i Hi. unfold bor, bnot, Spec.broadcast.
    rewrite !Z.lor_spec, !Facts.testbit_toInt32, Z.lnot_spec, Facts.testbit_toInt32,
      Z.land_spec, Z.lnot_spec, Bm by lia.
    rewrite <- (Facts.testbit_mod32 (ushr _ 0)), Hn, Facts.testbit_mod32 by exact Hi.
    rewrite Z.testbit_ones by lia.
    destruct (Z.leb_spec 0 i), (Z.ltb_spec i 32); try lia. now rewrite andb_true_r.
Qed.

(** C1 (fails at prefix 0): [-1 << (32 - 0)] shifts by [32 & 31 = 0], so the
    mask of [calculateSubnet] is 255.255.255.255 rather than 0.0.0.0, and the
    network and broadcast are the address itself rather than 0.0.0.0 and
    255.255.255.255. *)
Theorem calculateSubnet_cidr0_mask :
  let r := calculateSubnet "1.2.3.4" 0 None in
  subnetMask r = "255.255.255.255" /\ networkAddress r = "1.2.3.4"
  /\ broadcastAddress r = "1.2.3.4"
  /\ longToIp (Spec.mask 0) = "0.0.0.0"
  /\ longToIp (Spec.network (ipToLong "1.2.3.4") 0) = "0.0.0.0"
  /\ longToIp (Spec.broadcast (ipToLong "1.2.3.4") 0) = "255.255.255.255".
Proof. vm_compute. repeat split. Qed.

(** C7 (fails at prefix 0): the span of 8.8.8.8/0 is the whole address space
    and meets 10.0.0.0/8, but [checkPrivateOverlap] computes the span
    [[8.8.8.8, 8.8.8.8]] and reports no overlap; 11.0.0.1/7 does report
    10.0.0.0/8. *)
Theorem checkPrivateOverlap_cidr0 :
  checkPrivateOverlap "8.8.8.8" 0 = None
  /\ Spec.private_overlap "8.8.8.8" 0 = Some "10.0.0.0/8"
  /\ checkPrivateOverlap "11.0.0.1" 7 = Some "10.0.0.0/8"
  /\ Spec.private_overlap "11.0.0.1" 7 = Some "10.0.0.0/8".
Proof. vm_compute. repeat split. Qed.

(* ------------------------------------------------------------------ *)
(** ** Subnet enumerator *)

(** C10: at most one row of [generateSubnetTable] has [isCurrent = true]
    (two rows whose [[network, broadcast]] contain the address are the same
    row); a truncated table may have no current row: for 10.255.255.255,
    prefix 30 under /8 with limit 256, the current subnet lies beyond the cap. *)
Theorem generateSubnetTable_one_current :
  (forall text c base limit, 0 <= base -> c <= 32 ->
     forall k1 k2 r1 r2,
       nth_error (rows (generateSubnetTable text c base limit)) k1 = Some r1 ->
       nth_error (rows (generateSubnetTable text c base limit)) k2 = Some r2 ->
       isCurrent r1 = true -> isCurrent r2 = true -> k1 = k2)
  /\ (let t := generateSubnetTable "10.255.255.255" 30 8 256 in
      truncated t = true /\ existsb isCurrent (rows t) = false).
Proof.
  split; [|vm_compute; split; reflexivity].
  intros text c base limit Hb Hc k1 k2 r1 r2 H1 H2 C1 C2.
  apply Facts.rows_nth in H1 as (Hbc & Hk1 & ->).
  apply Facts.rows_nth in H2 as (_ & Hk2 & ->).
  apply Facts.subnet_row_current in C1, C2.
  set (B := ushr (band (ipToLong text) (ushr (shl (-1) (32 - base)) 0)) 0) in *.
  set (inc := 2 ^ (32 - c)) in *.
  assert (Hinc : 0 < inc <= two32).
  { unfold inc, two32. split; [apply Z.pow_pos_nonneg; lia|].
    change 4294967296 with (2 ^ 32). apply Z.pow_le_mono_r; lia. }
  assert (HP : 0 < 2 ^ c) by (apply Z.pow_pos_nonneg; lia).
  assert (HiP : inc * 2 ^ c = two32).
  { unfold inc. rewrite <- Z.pow_add_r by lia. now replace (32 - c + c) with 32 by lia. }
  assert (Hbound : 2 ^ (c - base) <= 2 ^ c) by (apply Z.pow_le_mono_r; lia).
  assert (Hm : forall k, 0 <= (B + k * inc) mod two32 < two32)
    by (intros; apply Z.mod_pos_bound; unfold two32; lia).
  apply Nat2Z.inj.
  apply (Facts.rows_unique B (ipToLong text) inc (2 ^ c)); try assumption; try lia.
  - split; [lia|]. apply Facts.current_window with (inc := inc); try lia; apply Hm.
  - split; [lia|]. apply Facts.current_window with (inc := inc); try lia; apply Hm.
Qed.

Lemma generateSubnetTable_one_current_witness :
  0 <= 24 /\ 26 <= 32 /\
  forall k1 k2 r1 r2,
    nth_error (rows (generateSubnetTable "192.168.1.10" 26 24 256)) k1 = Some r1 ->
    nth_error (rows (generateSubnetTable "192.168.1.10" 26 24 256)) k2 = Some r2 ->
    isCurrent r1 = true -> isCurrent r2 = true -> k1 = k2.
Proof.
  split; [lia|]. split; [lia|].
  exact (proj1 generateSubnetTable_one_current "192.168.1.10" 26 24 256
           ltac:(lia) ltac:(lia)).
Defined.

(** C2 (fails at base prefix 0): with [baseCidr = 0] the base mask
    [-1 << 32] is all-ones, so the rows of 8.8.8.8, /24 under /0 start at
    8.8.8.8 instead of 0.0.0.0; the enumeration cap of the spec (/30 under /8,
    limit 256) is met. *)
Theorem generateSubnetTable_base0 :
  let t := generateSubnetTable "8.8.8.8" 24 0 256 in
  option_map rowNetworkAddress (hd_error (rows t)) = Some "8.8.8.8"
  /\ longToIp (Spec.network (ipToLong "8.8.8.8") 0) = "0.0.0.0"
  /\ List.length (rows t) = 256%nat /\ totalCount t = 16777216 /\ truncated t = true
  /\ (let u := generateSubnetTable "10.1.2.3" 30 8 256 in
      List.length (rows u) = 256%nat /\ truncated u = true /\ totalCount u = 4194304).
Proof. vm_compute. repeat split. Qed.

(* ------------------------------------------------------------------ *)
(** ** Spot checks on the spec's examples *)

Example t1 : IpUtils.isValidIp "192.168.1.10" = true. Proof. vm_compute. reflexivity. Qed.
Example t2 : IpUtils.longToIp (IpUtils.ipToLong "192.168.1.10") = "192.168.1.10". Proof. vm_compute. reflexivity. Qed.
Example t3 : map IpUtils.isValidIp ["256.1.1.1"; "1.2.3"; "1.2.3.04"; "1.2.3.4.5"; "a.b.c.d"; " 1.2.3.4"; "0.0.0.0"] = [false;false;false;false;false;false;true]. Proof. vm_compute. reflexivity. Qed.
Example t4 : hostsPerSubnet (IpUtils.calculateSubnet "192.168.1.10" 24 None) = 254. Proof. vm_compute. reflexivity. Qed.
Example t5 : IpUtils.checkPrivateOverlap "11.0.0.1" 7 = Some "10.0.0.0/8". Proof. vm_compute. reflexivity. Qed.
Example t6 : map isCurrent (rows (IpUtils.generateSubnetTable "192.168.1.10" 26 24 256)) = [true;false;false;false]. Proof. vm_compute. reflexivity. Qed.
Example t7 : IpUtils.toBinaryString 5 = "00000000000000000000000000000101". Proof. vm_compute. reflexivity. Qed.
Example t8 : Spec.classify "10.5.0.1" = (Private, Some "10.0.0.0/8", Some 8). Proof. vm_compute. reflexivity. Qed.
Example t9 : Spec.private_overlap "8.8.8.8" 0 = Some "10.0.0.0/8". Proof. vm_compute. reflexivity. Qed.
Example t10 : IpUtils.checkPrivateOverlap "8.8.8.8" 0 = None. Proof. vm_compute. reflexivity. Qed.

(* ------------------------------------------------------------------ *)
(** ** Further properties of the code *)

(** ** Binary rendering *)

(** [toBinaryString] always gives 32 characters, and character [i]
    (counted from the left) is bit [31 - i] of the number in two's
    complement: the most significant bit comes first. *)
Theorem toBinaryString_bits (num : Z) :
  String.length (IpUtils.toBinaryString num) = 32%nat /\
  forall i, (i < 32)%nat ->
    String.get i (IpUtils.toBinaryString num) =
    Some (if Z.testbit num (31 - Z.of_nat i) then "1"%char else "0"%char).
Proof.
  rewrite Bin.toBinaryString_msb. split; [apply Bin.bits_msb_length|].
  intros i Hi. rewrite Bin.bits_msb_get by exact Hi.
  rewrite Facts.testbit_mod32 by lia. replace (Z.of_nat (32 - 1 - i)) with (31 - Z.of_nat i) by lia.
  reflexivity.
Qed.



(** ** Private-range overlap *)

(** For a host prefix (/32) the overlap test names exactly the private
    range that [getIpCategory] reports for the address, and gives null
    when the address is invalid or not private. *)
Theorem checkPrivateOverlap_host (text : string) :
  IpUtils.checkPrivateOverlap text 32 = rangeName (IpUtils.getIpCategory text).
Proof.
  rewrite Ovl.getIpCategory_rangeName. unfold IpUtils.checkPrivateOverlap.
  destruct (IpUtils.isValidIp text); cbn [negb]; [|reflexivity]. cbv zeta.
  pose proof (Facts.ipToLong_range text) as Hr.
  rewrite Ovl.full_mask_network, Ovl.full_mask_end by exact Hr.
  apply Ovl.overlap_lookup_point.
Qed.



(** ** Subnet table *)

(** For a valid address and [baseCidr <= cidr], the table reports
    [2^(cidr - baseCidr)] subnets in total, lists [min(total, limit)] of them
    (none when [limit] is negative), and is marked truncated exactly when it
    lists fewer rows than the total. *)
Theorem generateSubnetTable_shape (text : string) (c b limit : Z) :
  IpUtils.isValidIp text = true -> b <= c ->
  let t := IpUtils.generateSubnetTable text c b limit in
  totalCount t = 2 ^ (c - b) /\
  Z.of_nat (List.length (rows t)) = Z.max 0 (Z.min (2 ^ (c - b)) limit) /\
  (truncated t = true <-> Z.of_nat (List.length (rows t)) < totalCount t).
Proof.
  intros Hv Hbc t. destruct (Sub.table_fields text c b limit Hv Hbc) as (Ht & Hl & Hr).
  fold t in Ht, Hl, Hr. rewrite Ht, Hl, Hr.
  assert (0 < 2 ^ (c - b)) by (apply Z.pow_pos_nonneg; lia).
  split; [reflexivity|]. split; [lia|].
  rewrite Z.gtb_ltb. split.
  - intros E. apply Z.ltb_lt in E. lia.
  - intros E. apply Z.ltb_lt. lia.
Qed.

Lemma generateSubnetTable_shape_witness :
  (IpUtils.isValidIp "10.1.2.3" = true /\ 8 <= 30) /\
  (let t := IpUtils.generateSubnetTable "10.1.2.3" 30 8 256 in
   totalCount t = 2 ^ (30 - 8) /\
   Z.of_nat (List.length (rows t)) = Z.max 0 (Z.min (2 ^ (30 - 8)) 256) /\
   (truncated t = true <-> Z.of_nat (List.length (rows t)) < totalCount t)).
Proof.
  split; [split; [vm_compute; reflexivity|lia]|].
  apply generateSubnetTable_shape; [vm_compute; reflexivity|lia].
Defined.

(** For [1 <= baseCidr] and [cidr <= 32], row [k] (counted from 0) of the
    table is numbered [k + 1] and describes the subnet starting at
    [n = base + k * 2^(32 - cidr)], where [base] is the address rounded down
    to its /baseCidr block: the row shows [n] and [n + 2^(32 - cidr) - 1] as
    network and broadcast, the host range [n + 1 - (broadcast - 1)] below /31
    and "N/A" otherwise, is current exactly when the address lies in
    [[n, broadcast]], and lies inside the /baseCidr block (no wrap-around). *)
Theorem generateSubnetTable_rows (text : string) (c b limit : Z) (k : nat) (r : SubnetRow) :
  1 <= b -> c <= 32 ->
  nth_error (rows (IpUtils.generateSubnetTable text c b limit)) k = Some r ->
  let a := IpUtils.ipToLong text in
  let inc := 2 ^ (32 - c) in
  let n := a / 2 ^ (32 - b) * 2 ^ (32 - b) + Z.of_nat k * inc in
  index r = Z.of_nat k + 1 /\
  rowNetworkAddress r = IpUtils.longToIp n /\
  rowBroadcastAddress r = IpUtils.longToIp (n + inc - 1) /\
  range r = (if c <? 31
             then (IpUtils.longToIp (n + 1) ++ " - " ++ IpUtils.longToIp (n + inc - 2))%string
             else "N/A") /\
  (isCurrent r = true <-> n <= a <= n + inc - 1) /\
  a / 2 ^ (32 - b) * 2 ^ (32 - b) <= n /\
  n + inc - 1 <= a / 2 ^ (32 - b) * 2 ^ (32 - b) + 2 ^ (32 - b) - 1.
Proof. apply Sub.rows_spec. Qed.

Lemma generateSubnetTable_rows_witness :
  (1 <= 24 /\ 26 <= 32 /\
   nth_error (rows (IpUtils.generateSubnetTable "192.168.1.10" 26 24 256)) 1 =
   Some (mkSubnetRow 2 "192.168.1.64" "192.168.1.65 - 192.168.1.126" "192.168.1.127" false)) /\
  (let a := IpUtils.ipToLong "192.168.1.10" in
   let inc := 2 ^ (32 - 26) in
   let n := a / 2 ^ (32 - 24) * 2 ^ (32 - 24) + Z.of_nat 1 * inc in
   let r := mkSubnetRow 2 "192.168.1.64" "192.168.1.65 - 192.168.1.126" "192.168.1.127" false in
   index r = Z.of_nat 1 + 1 /\
   rowNetworkAddress r = IpUtils.longToIp n /\
   rowBroadcastAddress r = IpUtils.longToIp (n + inc - 1) /\
   range r = (if 26 <? 31
              then (IpUtils.longToIp (n + 1) ++ " - " ++ IpUtils.longToIp (n + inc - 2))%string
              else "N/A") /\
   (isCurrent r = true <-> n <= a <= n + inc - 1) /\
   a / 2 ^ (32 - 24) * 2 ^ (32 - 24) <= n /\
   n + inc - 1 <= a / 2 ^ (32 - 24) * 2 ^ (32 - 24) + 2 ^ (32 - 24) - 1).
Proof.
  assert (H : nth_error (rows (IpUtils.generateSubnetTable "192.168.1.10" 26 24 256)) 1 =
   Some (mkSubnetRow 2 "192.168.1.64" "192.168.1.65 - 192.168.1.126" "192.168.1.127" false))
    by (vm_compute; reflexivity).
  split; [split; [lia|split; [lia|exact H]]|].
  exact (generateSubnetTable_rows "192.168.1.10" 26 24 256 1 _ ltac:(lia) ltac:(lia) H).
Defined.

(** When the table is not cut off by [limit] ([2^(cidr - baseCidr) <= limit]),
    a valid address with [1 <= baseCidr <= cidr <= 32] has exactly one
    current row in the table. *)
Theorem generateSubnetTable_current_unique (text : string) (c b limit : Z) :
  IpUtils.isValidIp text = true -> 1 <= b <= c -> c <= 32 -> 2 ^ (c - b) <= limit ->
  exists k r,
    nth_error (rows (IpUtils.generateSubnetTable text c b limit)) k = Some r /\
    isCurrent r = true /\
    forall k' r', nth_error (rows (IpUtils.generateSubnetTable text c b limit)) k' = Some r' ->
                  isCurrent r' = true -> k' = k.
Proof. apply Sub.current_unique. Qed.

Lemma generateSubnetTable_current_unique_witness :
  (IpUtils.isValidIp "192.168.1.10" = true /\ 1 <= 24 <= 26 /\ 26 <= 32 /\ 2 ^ (26 - 24) <= 256) /\
  exists k r,
    nth_error (rows (IpUtils.generateSubnetTable "192.168.1.10" 26 24 256)) k = Some r /\
    isCurrent r = true /\
    forall k' r', nth_error (rows (IpUtils.generateSubnetTable "192.168.1.10" 26 24 256)) k' = Some r' ->
                  isCurrent r' = true -> k' = k.
Proof.
  split; [split; [vm_compute; reflexivity|split; [lia|split; [lia|vm_compute; discriminate]]]|].
  apply generateSubnetTable_current_unique; [vm_compute; reflexivity|lia|lia|vm_compute; discriminate].
Defined.

(** ** The calculator component *)


(** For a valid address, the bit display lists the 32 bits of the address,
    most significant first, and marks bit [i] as network below the parent
    prefix, subnet below the new prefix, and host after it. *)
Theorem bitVisuals_bits (st : Calc.Component) :
  IpUtils.isValidIp (Calc.ipInput st) = true ->
  List.length (Calc.bitVisuals st) = 32%nat /\
  forall i, (i < 32)%nat ->
    nth_error (Calc.bitVisuals st) i =
    Some (Calc.mkBitDetail
            (if Z.testbit (IpUtils.ipToLong (Calc.ipInput st)) (31 - Z.of_nat i) then "1" else "0")
            (if Z.of_nat i <? Calc.parentCidrInput st then Calc.bit_network
             else if Z.of_nat i <? Calc.cidrInput st then Calc.bit_subnet else Calc.bit_host)).
Proof.
  intros Hv. unfold Calc.bitVisuals. cbv zeta. rewrite Comp.result_valid_iff, Hv. cbn [negb].
  destruct (Comp.calculateSubnet_valid (Calc.ipInput st) (Calc.cidrInput st)
              (Calc.parentCidrInput st) Hv) as (_ & Hb & _).
  unfold Calc.result. rewrite Hb. fold (Calc.result st).
  split; [rewrite Comp.bit_details_length; apply (Comp.binary_lengths st Hv)|].
  intros i Hi. rewrite Comp.bit_details_nth, Comp.binaryIp_get by assumption.
  cbn [option_map]. rewrite Z.add_0_l.
  now destruct (Z.testbit _ _).
Qed.

Lemma bitVisuals_bits_witness :
  IpUtils.isValidIp "192.168.1.10" = true /\
  let st := Calc.mkComponent "192.168.1.10" 26 24 "" [] false false in
  List.length (Calc.bitVisuals st) = 32%nat /\
  forall i, (i < 32)%nat ->
    nth_error (Calc.bitVisuals st) i =
    Some (Calc.mkBitDetail
            (if Z.testbit (IpUtils.ipToLong (Calc.ipInput st)) (31 - Z.of_nat i) then "1" else "0")
            (if Z.of_nat i <? Calc.parentCidrInput st then Calc.bit_network
             else if Z.of_nat i <? Calc.cidrInput st then Calc.bit_subnet else Calc.bit_host)).
Proof.
  split; [vm_compute; reflexivity|]. apply bitVisuals_bits. vm_compute. reflexivity.
Defined.

(** For a valid address and a prefix [1 <= cidr <= 32], the mask display
    has 32 entries: "1" for the first [cidr] positions, "0" after. *)
Theorem maskVisuals_bits (st : Calc.Component) :
  IpUtils.isValidIp (Calc.ipInput st) = true -> 1 <= Calc.cidrInput st <= 32 ->
  List.length (Calc.maskVisuals st) = 32%nat /\
  forall i, (i < 32)%nat ->
    nth_error (Calc.maskVisuals st) i =
    Some (if Z.of_nat i <? Calc.cidrInput st then "1" else "0").
Proof.
  intros Hv Hc. unfold Calc.maskVisuals. cbv zeta. rewrite Comp.result_valid_iff, Hv.
  split; [rewrite Comp.split_chars_length; apply (Comp.binary_lengths st Hv)|].
  intros i Hi. rewrite Comp.split_chars_nth, Comp.binaryMask_get by assumption.
  cbn [option_map]. now destruct (_ <? _).
Qed.

Lemma maskVisuals_bits_witness :
  (IpUtils.isValidIp "10.0.0.1" = true /\ 1 <= 20 <= 32) /\
  let st := Calc.mkComponent "10.0.0.1" 20 8 "" [] false false in
  List.length (Calc.maskVisuals st) = 32%nat /\
  forall i, (i < 32)%nat ->
    nth_error (Calc.maskVisuals st) i =
    Some (if Z.of_nat i <? Calc.cidrInput st then "1" else "0").
Proof.
  split; [split; [vm_compute; reflexivity|lia]|].
  apply maskVisuals_bits; [vm_compute; reflexivity|cbn; lia].
Defined.

(** When the component accepts a private address (no configuration error,
    prefix up to /32), every subnet listed in its table lies inside the
    RFC 1918 range that the address belongs to. *)
Theorem subnetTable_private_inside (st : Calc.Component) :
  type (Calc.ipInfo st) = Private -> Calc.isValid st = true -> Calc.cidrInput st <= 32 ->
  exists pr, In pr PRIVATE_RANGES /\ rangeName (Calc.ipInfo st) = Some (pr_name pr) /\
  forall k r, nth_error (rows (Calc.subnetTable st)) k = Some r ->
    exists n, rowNetworkAddress r = IpUtils.longToIp n /\
              rowBroadcastAddress r = IpUtils.longToIp (n + 2 ^ (32 - Calc.cidrInput st) - 1) /\
              pr_start pr <= n /\ n + 2 ^ (32 - Calc.cidrInput st) - 1 <= pr_end pr.
Proof.
  intros Hp Hok Hc. destruct (Comp.isValid_inv st Hok) as (Hv & Hce & Hpc).
  destruct (Comp.private_parent st Hp Hce) as (pr & Hin & Hname & Hx & Hm).
  destruct (Comp.ranges_aligned pr Hin) as (Hm32 & Hal & Hend & _).
  exists pr. split; [exact Hin|]. split; [exact Hname|].
  intros k r Hr. rewrite Comp.subnetTable_valid in Hr by exact Hok.
  assert (Hb1 : 1 <= Calc.parentCidrInput st) by lia.
  pose proof (Sub.rows_spec _ _ _ _ k r Hb1 Hc Hr) as (_ & Hn & Hb & _ & _ & Hlo & Hhi).
  eexists. split; [exact Hn|]. split; [exact Hb|].
  pose proof (Facts.ipToLong_range (Calc.ipInput st)) as Ha.
  rewrite Hend in Hx |- *.
  pose proof (Comp.floor_in_block (IpUtils.ipToLong (Calc.ipInput st)) (pr_start pr)
                (32 - pr_minCidr pr) ltac:(lia) Hal Hx) as Hf.
  destruct (Comp.floor_nest (IpUtils.ipToLong (Calc.ipInput st)) (32 - Calc.parentCidrInput st)
              (32 - pr_minCidr pr) ltac:(lia) ltac:(lia)) as [N1 N2].
  rewrite Hf in N1, N2. lia.
Qed.

Lemma subnetTable_private_inside_witness :
  let st := Calc.mkComponent "192.168.1.10" 26 24 "" [] false false in
  (type (Calc.ipInfo st) = Private /\ Calc.isValid st = true /\ Calc.cidrInput st <= 32) /\
  exists pr, In pr PRIVATE_RANGES /\ rangeName (Calc.ipInfo st) = Some (pr_name pr) /\
  forall k r, nth_error (rows (Calc.subnetTable st)) k = Some r ->
    exists n, rowNetworkAddress r = IpUtils.longToIp n /\
              rowBroadcastAddress r = IpUtils.longToIp (n + 2 ^ (32 - Calc.cidrInput st) - 1) /\
              pr_start pr <= n /\ n + 2 ^ (32 - Calc.cidrInput st) - 1 <= pr_end pr.
Proof.
  split; [split; [vm_compute; reflexivity|split; [vm_compute; reflexivity|cbn; lia]]|].
  apply subnetTable_private_inside; [vm_compute; reflexivity|vm_compute; reflexivity|cbn; lia].
Defined.



(** When the component is valid with a parent prefix of at least /1, a
    prefix up to /32 and at most 8 borrowed bits (so the 256-row table is
    not cut off), its table has exactly one current row. *)
Theorem subnetTable_one_current (st : Calc.Component) :
  Calc.isValid st = true -> 1 <= Calc.parentCidrInput st -> Calc.cidrInput st <= 32 ->
  Calc.cidrInput st - Calc.parentCidrInput st <= 8 ->
  exists k r,
    nth_error (rows (Calc.subnetTable st)) k = Some r /\ isCurrent r = true /\
    forall k' r', nth_error (rows (Calc.subnetTable st)) k' = Some r' ->
                  isCurrent r' = true -> k' = k.
Proof.
  intros Hok Hb Hc H8. destruct (Comp.isValid_inv st Hok) as (Hv & _ & Hpc).
  rewrite Comp.subnetTable_valid by exact Hok.
  apply Sub.current_unique; [exact Hv|lia|exact Hc|].
  change 256 with (2 ^ 8). apply Z.pow_le_mono_r; lia.
Qed.

Lemma subnetTable_one_current_witness :
  let st := Calc.mkComponent "172.20.5.9" 20 12 "" [] false false in
  (Calc.isValid st = true /\ 1 <= Calc.parentCidrInput st /\ Calc.cidrInput st <= 32 /\
   Calc.cidrInput st - Calc.parentCidrInput st <= 8) /\
  exists k r,
    nth_error (rows (Calc.subnetTable st)) k = Some r /\ isCurrent r = true /\
    forall k' r', nth_error (rows (Calc.subnetTable st)) k' = Some r' ->
                  isCurrent r' = true -> k' = k.
Proof.
  split; [split; [vm_compute; reflexivity|cbn; lia]|].
  apply subnetTable_one_current; [vm_compute; reflexivity|cbn; lia|cbn; lia|cbn; lia].
Defined.

(** After [updateParentCidr] with a value [parseInt] reads as a number [v],
    the parent prefix is [v] and the new prefix is raised to [v] if it was
    smaller, so the new prefix is never below the parent prefix; the address
    is unchanged. *)
Theorem updateParentCidr_keeps_order (st st' : Calc.Component) (raw : string) :
  Calc.updateParentCidr st raw = Some st' ->
  exists v, parseInt10 raw = Some v /\ Calc.parentCidrInput st' = v /\
            Calc.cidrInput st' = Z.max (Calc.cidrInput st) v /\
            Calc.ipInput st' = Calc.ipInput st /\
            Calc.parentCidrInput st' <= Calc.cidrInput st'.
Proof.
  unfold Calc.updateParentCidr. destruct (parseInt10 raw) as [v|]; [|discriminate].
  cbn [Calc.cidrInput Calc.ipInput Calc.parentCidrInput Calc.chatInput Calc.chatMessages
       Calc.isThinking Calc.showSettings].
  intros Hs. exists v. split; [reflexivity|].
  destruct (Z.ltb_spec (Calc.cidrInput st) v); injection Hs as <-; cbn; repeat split; lia.
Qed.

Lemma updateParentCidr_keeps_order_witness :
  let st := Calc.mkComponent "192.168.1.10" 26 24 "" [] false false in
  Calc.updateParentCidr st "28" = Some (Calc.mkComponent "192.168.1.10" 28 28 "" [] false false) /\
  exists v, parseInt10 "28" = Some v /\
    Calc.parentCidrInput (Calc.mkComponent "192.168.1.10" 28 28 "" [] false false) = v /\
    Calc.cidrInput (Calc.mkComponent "192.168.1.10" 28 28 "" [] false false) = Z.max (Calc.cidrInput st) v /\
    Calc.ipInput (Calc.mkComponent "192.168.1.10" 28 28 "" [] false false) = Calc.ipInput st /\
    Calc.parentCidrInput (Calc.mkComponent "192.168.1.10" 28 28 "" [] false false) <=
    Calc.cidrInput (Calc.mkComponent "192.168.1.10" 28 28 "" [] false false).
Proof.
  split; [vm_compute; reflexivity|]. apply updateParentCidr_keeps_order. vm_compute. reflexivity.
Defined.

(** ** The chat service *)

(** If every request of the service is rejected with some message [e] (for
    instance a failed fetch), [sendChat] on a valid configuration with a
    non-blank input and a known provider appends the user's trimmed text and
    then the component's generic apology, clears the input and stops
    thinking; the service's own error texts never reach the chat. *)
Theorem sendChat_rejected (pv : Llm.Providers) (cfg : Llm.LlmConfig) (st : Calc.Component)
    (e : string) :
  (forall k p, Llm.chatGemini pv k p = Llm.Rejected e /\ Llm.chatOpenAI pv k p = Llm.Rejected e /\
               Llm.chatAnthropic pv k p = Llm.Rejected e) ->
  In (Llm.provider cfg) ["gemini"; "openai"; "anthropic"] ->
  Calc.isValid st = true -> Calc.isThinking st = false -> Calc.trim (Calc.chatInput st) <> "" ->
  let st' := Calc.sendChat pv (Some cfg) st None in
  Calc.chatMessages st' =
    (Calc.chatMessages st ++
     [Calc.mkChatMessage "user" (Calc.trim (Calc.chatInput st));
      Calc.mkChatMessage "ai" "Sorry, I encountered an error. Please check your settings."])%list /\
  Calc.chatInput st' = "" /\ Calc.isThinking st' = false.
Proof.
  intros Hpv Hpr Hok Ht Hne st'. unfold st', Calc.sendChat. cbn beta iota zeta.
  destruct (String.eqb_spec (Calc.trim (Calc.chatInput st)) ""); [contradiction|].
  rewrite Hok, Ht. cbn [negb orb].
  destruct (Hpv (Llm.apiKey cfg) (Llm.systemPrompt (Calc.trim (Calc.chatInput st)) (Calc.result st)))
    as (Hg & Ho & Ha).
  unfold Llm.chat. cbn beta iota zeta. rewrite Hg, Ho, Ha.
  cbn [In] in Hpr. destruct Hpr as [Hq|[Hq|[Hq|[]]]]; rewrite <- Hq; cbn;
    rewrite <- app_assoc; auto.
Qed.

Lemma sendChat_rejected_witness :
  let pv := Llm.mkProviders (fun _ _ => Llm.Rejected "Failed to fetch")
              (fun _ _ => Llm.Rejected "Failed to fetch") (fun _ _ => Llm.Rejected "Failed to fetch") in
  let cfg := Llm.mkLlmConfig "openai" "key" in
  let st := Calc.mkComponent "192.168.1.10" 26 24 "  hello " [] false false in
  ((forall k p, Llm.chatGemini pv k p = Llm.Rejected "Failed to fetch" /\
                Llm.chatOpenAI pv k p = Llm.Rejected "Failed to fetch" /\
                Llm.chatAnthropic pv k p = Llm.Rejected "Failed to fetch") /\
   In (Llm.provider cfg) ["gemini"; "openai"; "anthropic"] /\
   Calc.isValid st = true /\ Calc.isThinking st = false /\ Calc.trim (Calc.chatInput st) <> "") /\
  let st' := Calc.sendChat pv (Some cfg) st None in
  Calc.chatMessages st' =
    (Calc.chatMessages st ++
     [Calc.mkChatMessage "user" (Calc.trim (Calc.chatInput st));
      Calc.mkChatMessage "ai" "Sorry, I encountered an error. Please check your settings."])%list /\
  Calc.chatInput st' = "" /\ Calc.isThinking st' = false.
Proof.
  split.
  - split; [intros; repeat split|]. split; [cbn; auto|].
    split; [vm_compute; reflexivity|]. split; [reflexivity|]. vm_compute. discriminate.
  - apply (sendChat_rejected _ _ _ "Failed to fetch"); [intros; repeat split|cbn; auto|vm_compute; reflexivity|reflexivity|].
    vm_compute. discriminate.
Defined.
